(** * DOM label overlay and compass button: a shallow embedding

    The development follows the label collection widget of the repository
    (the file that defines [DOMLabelCollection]) and the constructor of
    [CompassButton].  JavaScript objects that are shared by reference
    (the labels) live in a store indexed by object identity; everything a
    method mutates is threaded through an explicit state, and a call ends
    in a value, a thrown error, or in exhaustion of the fuel that bounds
    the notification loop. *)

From stdpp Require Import base list strings pretty.

#[local] Set Warnings "-clear-no-such-hyp".


(** ** What the host engine and the browser provide *)

(** A DOM element as far as the widget touches it: its text and the three
    style properties written by the frame synchronisation. *)
Record Element := mkElement {
  textContent : string;
  style_display : string;
  style_top : string;
  style_left : string
}.

(** JavaScript numbers, [Cartesian3], the scene with its camera and its
    projection, and the layout sizes of an element are supplied by the
    engine and the browser; the widget only combines them. *)
Class Host := {
  Num : Type;
  Cartesian3 : Type;
  Scene : Type;
  num_add : Num → Num → Num;
  num_sub : Num → Num → Num;
  num_half : Num → Num;                      (* x / 2 *)
  num_to_string : Num → string;              (* the conversion done by [x + 'px'] *)
  dot_negative : Cartesian3 → Cartesian3 → bool;  (* Cartesian3.dot(a, b) < 0 *)
  camera_position : Scene → Cartesian3;      (* scene.camera.position *)
  cartesianToCanvasCoordinates : Scene → Cartesian3 → option (Num * Num);
                                             (* undefined is None; (x, y) otherwise *)
  offsetHeight : Element → Num;
  offsetWidth : Element → Num
}.

(** Errors a call can throw. *)
Inductive Error :=
| DeveloperError (msg : string)
| RuntimeError (msg : string)
| NotFoundError                              (* DOM removeChild on a non-child *)
| TypeError.                                 (* a property read on no object *)

(** How a call ends. *)
Inductive Outcome (A : Type) :=
| Returned (a : A)
| Threw (e : Error)
| OutOfFuel.
Arguments Returned {A} a.
Arguments Threw {A} e.
Arguments OutOfFuel {A}.

(** Object identity of a label: its address in the store. *)
Abbreviation Ref := nat (only parsing).
Abbreviation Id := string (only parsing).

(** ** AssociativeArray *)

(** Modelled from the spec: the engine's AssociativeArray is not among the
    sources.  The spec describes the label map as an ordered mapping from
    id to label with unique keys; the model keeps the entries in insertion
    order, [values] is the array handed to loops and listeners. *)
Module AssociativeArray.
Abbreviation t := (list (string * nat)) (only parsing).

(** Modelled from the spec: the number of entries. *)
Definition length (a : t) : nat := List.length a.

(** Modelled from the spec: the stored values, in insertion order. *)
Definition values (a : t) : list nat := a.*2.

(** Modelled from the spec: the value filed under a key, undefined
    ([None]) when there is none. *)
Fixpoint get (a : t) (key : string) : option nat :=
  match a with
  | [] => None
  | (k, v) :: a' => if bool_decide (k = key) then Some v else get a' key
  end.

(** Modelled from the spec: whether a value is filed under the key. *)
Definition contains (a : t) (key : string) : bool :=
  match get a key with Some _ => true | None => false end.

(** Modelled from the spec: the array without the key; keys are unique. *)
Fixpoint delete (a : t) (key : string) : t :=
  match a with
  | [] => []
  | (k, v) :: a' =>
      if bool_decide (k = key) then delete a' key else (k, v) :: delete a' key
  end.

(** Modelled from the spec: [remove] drops the key and answers whether it
    was present. *)
Definition remove (a : t) (key : string) : t * bool :=
  (delete a key, contains a key).

(** Modelled from the spec: [set] leaves the array alone when the key
    already holds this very value, and otherwise files the value under
    the key at the end. *)
Definition set (a : t) (key : string) (value : nat) : t :=
  if bool_decide (get a key = Some value) then a
  else delete a key ++ [(key, value)].

(** Modelled from the spec: [removeAll] empties the array. *)
Definition removeAll (a : t) : t := [].
End AssociativeArray.

(** ** Labels *)

Module DOMLabel.
Section WithHost.
Context `{Host}.

(** Modelled from the spec: DOMLabel is not among the sources.  The spec
    lists its fields: identity, world position, text, visibility flag,
    pixel offsets, back-reference to the owning collection, and the DOM
    element it owns.  One collection is modelled, so the back-reference
    is a flag: [true] for this collection, [false] for undefined. *)
Record t := mk {
  id : string;
  _position : Cartesian3;
  _text : string;
  _show : bool;
  _vOffset : Num;
  _hOffset : Num;
  _domlabelCollection : bool;
  _label : Element
}.

(** Modelled from the spec: the plain object accepted by [add] in place
    of a label, with the fields the DOMLabel constructor reads. *)
Record Options := mkOptions {
  o_id : string;
  o_position : Cartesian3;
  o_text : string;
  o_show : bool;
  o_vOffset : Num;
  o_hOffset : Num
}.

(** Modelled from the spec: the DOMLabel constructor, which is not among
    the sources, copies the options and creates the element the label
    owns. *)
Definition new (o : Options) : t :=
  mk (o_id o) (o_position o) (o_text o) (o_show o) (o_vOffset o) (o_hOffset o)
     false (mkElement (o_text o) EmptyString EmptyString EmptyString).

Definition set_domlabelCollection (b : bool) (l : t) : t :=
  mk (id l) (_position l) (_text l) (_show l) (_vOffset l) (_hOffset l) b (_label l).

Definition set_label (e : Element) (l : t) : t :=
  mk (id l) (_position l) (_text l) (_show l) (_vOffset l) (_hOffset l)
     (_domlabelCollection l) e.
End WithHost.
End DOMLabel.


(** ** The compass button *)

Module CompassButton.
Section WithViewModel.
Context `{Host}.

(** [new CompassButtonViewModel(scene, duration)] is not among the
    sources: the view model and its constructor, which may throw, are
    taken as given. *)
Variable ViewModel : Type.
Variable CompassButtonViewModel : option Scene → option Num → Outcome ViewModel.

Definition dq : string := String (Ascii.ascii_of_nat 34) EmptyString.

Definition svgPath : string :=
  "M14,0C6.268,0,0,6.268,0,14s6.268,14,14,14s14-6.268,14-14S21.732,0,14,0z M14,26            C7.373,26,2,20.627,2,14S7.373,2,14,2s12,5.373,12,12S20.627,26,14,26z             M10,14c0,2.21,1.791,4,4,4s4-1.79,4-4S14,3,14,3S10,11.79,10,14z M16,14c0,1.104-0.896,2-2,2            s-2-0.896-2-2s0.896-2,2-2S16,12.896,16,14z".

Definition dataBind : string :=
  "attr: { title: tooltip },click: command,cesiumSvgPath: { path: _svgPath, width: 28, height: 28, style:{transform: headingStyle, " +:+ dq +:+ "-ms-transform" +:+ dq +:+ ": headingStyle, " +:+ dq +:+ "-webkit-transform" +:+ dq +:+ ": headingStyle}}".

(** The button element created by the constructor. *)
Record Button := mkButton {
  type : string;
  className : string;
  data_bind : string
}.

Record t := mk {
  _container : list Button;        (* the child nodes of the container *)
  _viewModel : ViewModel;
  _svgPath : string;               (* viewModel._svgPath *)
  _element : Button
}.

(** The constructor; applying the bindings is left to the binding
    library and changes nothing that is modelled here. *)
Definition new (container : option (list Button)) (scene : option Scene)
    (duration : option Num) : Outcome t :=
  match container with
  | None => Threw (DeveloperError "container is required.")
  | Some container =>
      match CompassButtonViewModel scene duration with
      | Returned viewModel =>
          let element :=
            mkButton "button" "cesium-button cesium-toolbar-button cesium-compass-button"
              dataBind in
          Returned (mk (container ++ [element]) viewModel svgPath element)
      | Threw e => Threw e
      | OutOfFuel => OutOfFuel
      end
  end.

Definition isDestroyed (b : t) : bool := false.
End WithViewModel.
End CompassButton.

(** ** The label collection *)

Module DOMLabelCollection.
Section WithHost.
Context `{Host}.

(** The container element: its [style.display] and its child nodes.  A
    label owns its element, so a child is named by the label it belongs
    to. *)
Record Container := mkContainer {
  display : string;
  children : list nat
}.

(** [appendChild] moves a node that is already a child to the end. *)
Definition appendChild (r : Ref) (c : Container) : Container :=
  mkContainer (display c) (filter (λ x, x ≠ r) (children c) ++ [r]).

(** [removeChild] throws NotFoundError (here [None]) on a node that is not
    a child. *)
Definition removeChild (r : Ref) (c : Container) : option Container :=
  if bool_decide (r ∈ children c)
  then Some (mkContainer (display c) (filter (λ x, x ≠ r) (children c)))
  else None.

(** Calls made on [scene.preRender]; the listener is always [renderFrame],
    the scope is the second argument when one is passed. *)
Inductive Scope := ScopeUndefined | ScopeThis.
Inductive PreRenderCall :=
| addEventListener (scope : Scope)
| removeEventListener (scope : Scope).

(** What the collection does to its [collectionChanged] event, in order:
    a raise with its two arrays, the return of that raise, and a request
    that arrived while [_firing] was set. *)
Inductive Notification :=
| RaiseBegin (added removed : list nat)
| RaiseEnd
| Deferred.

(** The fields of the collection, the store of label objects its methods
    reach, and two logs kept for the proofs: the calls on the pre-render
    event and the notifications. *)
Record t := mk {
  store : list DOMLabel.t;
  _container : Container;
  _scene : Scene;
  _labels : list (string * nat);
  _addedLabels : list (string * nat);
  _removedLabels : list (string * nat);
  _show : bool;
  _firing : bool;
  _refire : bool;
  preRender : list PreRenderCall;
  trace : list Notification
}.

Definition with_store (x : list DOMLabel.t) (s : t) : t :=
  mk x (_container s) (_scene s) (_labels s) (_addedLabels s) (_removedLabels s)
     (_show s) (_firing s) (_refire s) (preRender s) (trace s).
Definition with_container (x : Container) (s : t) : t :=
  mk (store s) x (_scene s) (_labels s) (_addedLabels s) (_removedLabels s)
     (_show s) (_firing s) (_refire s) (preRender s) (trace s).
Definition with_labels (x : list (string * nat)) (s : t) : t :=
  mk (store s) (_container s) (_scene s) x (_addedLabels s) (_removedLabels s)
     (_show s) (_firing s) (_refire s) (preRender s) (trace s).
Definition with_addedLabels (x : list (string * nat)) (s : t) : t :=
  mk (store s) (_container s) (_scene s) (_labels s) x (_removedLabels s)
     (_show s) (_firing s) (_refire s) (preRender s) (trace s).
Definition with_removedLabels (x : list (string * nat)) (s : t) : t :=
  mk (store s) (_container s) (_scene s) (_labels s) (_addedLabels s) x
     (_show s) (_firing s) (_refire s) (preRender s) (trace s).
Definition with_show (x : bool) (s : t) : t :=
  mk (store s) (_container s) (_scene s) (_labels s) (_addedLabels s) (_removedLabels s)
     x (_firing s) (_refire s) (preRender s) (trace s).
Definition with_firing (x : bool) (s : t) : t :=
  mk (store s) (_container s) (_scene s) (_labels s) (_addedLabels s) (_removedLabels s)
     (_show s) x (_refire s) (preRender s) (trace s).
Definition with_refire (x : bool) (s : t) : t :=
  mk (store s) (_container s) (_scene s) (_labels s) (_addedLabels s) (_removedLabels s)
     (_show s) (_firing s) x (preRender s) (trace s).
Definition with_preRender (x : list PreRenderCall) (s : t) : t :=
  mk (store s) (_container s) (_scene s) (_labels s) (_addedLabels s) (_removedLabels s)
     (_show s) (_firing s) (_refire s) x (trace s).
Definition with_trace (x : list Notification) (s : t) : t :=
  mk (store s) (_container s) (_scene s) (_labels s) (_addedLabels s) (_removedLabels s)
     (_show s) (_firing s) (_refire s) (preRender s) x.

Definition log (n : Notification) (s : t) : t := with_trace (trace s ++ [n]) s.

(** A method: it transforms the state and ends in an outcome. *)
Definition M (A : Type) : Type := t → t * Outcome A.

Definition ret {A} (a : A) : M A := λ s, (s, Returned a).
Definition throw {A} (e : Error) : M A := λ s, (s, Threw e).
Definition bind {A B} (m : M A) (k : A → M B) : M B :=
  λ s, match m s with
       | (s', Returned a) => k a s'
       | (s', Threw e) => (s', Threw e)
       | (s', OutOfFuel) => (s', OutOfFuel)
       end.

(** [new DOMLabel(options)]: a fresh object at the end of the store. *)
Definition alloc (l : DOMLabel.t) (s : t) : t * nat :=
  (with_store (store s ++ [l]) s, length (store s)).

(** The constructor.  [getElement] is the engine's lookup of a container
    given by element or by id; the model is handed the element. *)
Definition new (labels : list DOMLabel.t) (container : option Container)
    (scene : option Scene) (show : option bool) : Outcome t :=
  match container with
  | None => Threw (DeveloperError "container is required.")
  | Some c =>
      match scene with
      | None => Threw (DeveloperError "scene is required.")
      | Some sc =>
          Returned (mk labels c sc [] [] [] (default true show) false false
                      [addEventListener ScopeThis] [])
      end
  end.

(** The argument of [add]: undefined, a label object, or plain options. *)
Inductive AddArg :=
| ArgUndefined
| ArgLabel (label : nat)
| ArgOptions (options : DOMLabel.Options).

(** The mutating methods, as a listener or a caller invokes them. *)
Inductive Call :=
| CallAdd (label : AddArg)
| CallRemove (label : option nat)
| CallRemoveById (id : option string)
| CallRemoveAll
| CallSetShow (value : option bool).

Inductive Value :=
| VUndefined
| VBool (b : bool)
| VLabel (label : nat).

(** A listener of [collectionChanged] receives the collection and the two
    arrays, and answers with the calls it makes on the collection before
    it returns.  The collection it is handed carries the notification log,
    so that a listener may behave differently from one raise to the
    next. *)
Definition Listener : Type := t → list nat → list nat → list Call.

(** *** add *)

(** The assignments of [add] between the duplicate check and the
    notification. *)
Definition add_commit (r : Ref) (l : DOMLabel.t) (s : t) : t :=
  let id := DOMLabel.id l in
  let s1 := with_store (<[r := DOMLabel.set_domlabelCollection true l]> (store s)) s in
  let s2 := with_container (appendChild r (_container s1)) s1 in
  let s3 := with_labels (AssociativeArray.set (_labels s2) id r) s2 in
  let (removed', was_removed) := AssociativeArray.remove (_removedLabels s3) id in
  let s4 := with_removedLabels removed' s3 in
  if was_removed then s4
  else with_addedLabels (AssociativeArray.set (_addedLabels s4) id r) s4.

Definition add_with (fire : M unit) (label : AddArg) : M nat :=
  λ s,
    match label with
    | ArgUndefined => throw (DeveloperError "label is required.") s
    | _ =>
        let (s0, r) :=
          match label with
          | ArgOptions o => alloc (DOMLabel.new o) s
          | ArgLabel r => (s, r)
          | ArgUndefined => (s, 0)
          end in
        match store s0 !! r with
        | None => throw TypeError s0
        | Some l =>
            let id := DOMLabel.id l in
            if AssociativeArray.contains (_labels s0) id
            then throw (RuntimeError
                          ("A label with id " +:+ id +:+ " already exists in this collection.")) s0
            else bind fire (λ _, ret r) (add_commit r l s0)
        end
    end.

(** *** removeById and remove *)

(** The assignments of [removeById] once the id was found, up to the
    detachment of the element, which can throw. *)
Definition removeById_commit (id : Id) (r : Ref) (s : t) : t :=
  let s1 := with_labels (AssociativeArray.remove (_labels s) id).1 s in
  let (added', was_added) := AssociativeArray.remove (_addedLabels s1) id in
  let s2 := with_addedLabels added' s1 in
  let s3 :=
    if was_added then s2
    else with_removedLabels (AssociativeArray.remove (_removedLabels s2) id).1 s2 in
  let s4 := with_labels (AssociativeArray.remove (_labels s3) id).1 s3 in
  with_store (alter (DOMLabel.set_domlabelCollection false) r (store s4)) s4.

Definition removeById_with (fire : M unit) (id : option Id) : M bool :=
  λ s,
    match id with
    | None => ret false s
    | Some id =>
        match AssociativeArray.get (_labels s) id with
        | None => ret false s
        | Some r =>
            let s1 := removeById_commit id r s in
            match removeChild r (_container s1) with
            | None => throw NotFoundError s1
            | Some c => bind fire (λ _, ret true) (with_container c s1)
            end
        end
    end.

Definition remove_with (fire : M unit) (label : option nat) : M bool :=
  λ s,
    match label with
    | None => ret false s
    | Some r =>
        match store s !! r with
        | None => throw TypeError s
        | Some l => removeById_with fire (Some (DOMLabel.id l)) s
        end
    end.

(** *** removeAll *)

(** One turn of the loop of [removeAll] on the label [r]. *)
Definition removeAll_step (r : Ref) : M unit :=
  λ s,
    match store s !! r with
    | None => throw TypeError s
    | Some l =>
        let existingItemId := DOMLabel.id l in
        match AssociativeArray.get (_addedLabels s) existingItemId with
        | Some _ => ret tt s
        | None =>
            let s1 := with_store (<[r := DOMLabel.set_domlabelCollection false l]> (store s)) s in
            match removeChild r (_container s1) with
            | None => throw NotFoundError s1
            | Some c =>
                let s2 := with_container c s1 in
                ret tt (with_removedLabels
                          (AssociativeArray.set (_removedLabels s2) existingItemId r) s2)
            end
        end
    end.

Fixpoint removeAll_loop (array : list nat) : M unit :=
  match array with
  | [] => ret tt
  | r :: array' => bind (removeAll_step r) (λ _, removeAll_loop array')
  end.

Definition removeAll_with (fire : M unit) : M unit :=
  λ s,
    bind (removeAll_loop (AssociativeArray.values (_labels s)))
      (λ _ s1,
         let s2 := with_labels (AssociativeArray.removeAll (_labels s1)) s1 in
         let s3 := with_addedLabels (AssociativeArray.removeAll (_addedLabels s2)) s2 in
         fire s3) s.

(** *** The show property *)

Definition set_show (value : option bool) : M unit :=
  λ s,
    match value with
    | None => throw (DeveloperError "value is require") s
    | Some value =>
        if bool_decide (value = _show s) then ret tt s
        else
          let s1 := with_show value s in
          if value
          then ret tt (with_preRender (preRender s1 ++ [addEventListener ScopeThis])
                         (with_container (mkContainer "block" (children (_container s1))) s1))
          else ret tt (with_preRender (preRender s1 ++ [removeEventListener ScopeUndefined])
                         (with_container (mkContainer "none" (children (_container s1))) s1))
    end.

(** *** contains and getById *)

Definition contains (label : option nat) (s : t) : Outcome bool :=
  match label with
  | None => Threw (DeveloperError "label is required.")
  | Some r =>
      match store s !! r with
      | None => Threw TypeError
      | Some l =>
          Returned (bool_decide (AssociativeArray.get (_labels s) (DOMLabel.id l) = Some r))
      end
  end.

Definition getById (id : option Id) (s : t) : Outcome (option nat) :=
  match id with
  | None => Threw (DeveloperError "id is required.")
  | Some id => Returned (AssociativeArray.get (_labels s) id)
  end.

(** *** Change notification *)

Section WithListeners.
Variable listeners : list Listener.

(** A call made through the public interface, its result kept as a value. *)
Definition call_with (fire : M unit) (c : Call) : M Value :=
  match c with
  | CallAdd label => bind (add_with fire label) (λ r, ret (VLabel r))
  | CallRemove label => bind (remove_with fire label) (λ b, ret (VBool b))
  | CallRemoveById id => bind (removeById_with fire id) (λ b, ret (VBool b))
  | CallRemoveAll => bind (removeAll_with fire) (λ _, ret VUndefined)
  | CallSetShow value => bind (set_show value) (λ _, ret VUndefined)
  end.

(** The body of a listener: its calls in order; an error leaves it. *)
Fixpoint run_calls (fire : M unit) (calls : list Call) : M unit :=
  match calls with
  | [] => ret tt
  | c :: calls' => bind (call_with fire c) (λ _, run_calls fire calls')
  end.

Fixpoint invoke (fire : M unit) (ls : list Listener) (added removed : list nat) : M unit :=
  match ls with
  | [] => ret tt
  | l :: ls' =>
      λ s, bind (run_calls fire (l s added removed))
             (λ _, invoke fire ls' added removed) s
  end.

(** Modelled from the spec: the engine's Event is not among the sources;
    [raiseEvent(collection, addedArray, removedArray)] on the
    change-notification sink calls every listener in registration order.
    The begin and the return of the raise are logged. *)
Definition raiseEvent (fire : M unit) (added removed : list nat) : M unit :=
  λ s,
    bind (invoke fire listeners added removed)
      (λ _ s', ret tt (log RaiseEnd s'))
      (log (RaiseBegin added removed) s).

(** The do-while loop of [fireChangedEvent]; [n] bounds its turns. *)
Fixpoint do_while (fire : M unit) (n : nat) : M unit :=
  λ s,
    match n with
    | 0 => (s, OutOfFuel)
    | S n' =>
        let s1 := with_refire false s in
        let addedArray := AssociativeArray.values (_addedLabels s1) in
        let removedArray := AssociativeArray.values (_removedLabels s1) in
        let s2 := with_addedLabels (AssociativeArray.removeAll (_addedLabels s1)) s1 in
        let s3 := with_removedLabels (AssociativeArray.removeAll (_removedLabels s2)) s2 in
        bind (raiseEvent fire addedArray removedArray)
          (λ _ s4, if _refire s4 then do_while fire n' s4 else ret tt s4) s3
    end.

Definition fireChangedEvent_with (fire : M unit) (n : nat) : M unit :=
  λ s,
    if _firing s then ret tt (log Deferred (with_refire true s))
    else
      if negb (Nat.eqb (AssociativeArray.length (_addedLabels s)) 0)
         || negb (Nat.eqb (AssociativeArray.length (_removedLabels s)) 0)
      then bind (do_while fire n) (λ _ s', ret tt (with_firing false s'))
             (with_firing true s)
      else ret tt s.

(** [fireChangedEvent]; the calls listeners make reach it again with one
    unit of fuel less. *)
Fixpoint fireChangedEvent (fuel : nat) : M unit :=
  fireChangedEvent_with
    (match fuel with
     | 0 => λ s, (s, OutOfFuel)
     | S fuel' => fireChangedEvent fuel'
     end) fuel.

Definition add (fuel : nat) (label : AddArg) : M nat :=
  add_with (fireChangedEvent fuel) label.
Definition remove (fuel : nat) (label : option nat) : M bool :=
  remove_with (fireChangedEvent fuel) label.
Definition removeById (fuel : nat) (id : option Id) : M bool :=
  removeById_with (fireChangedEvent fuel) id.
Definition removeAll (fuel : nat) : M unit :=
  removeAll_with (fireChangedEvent fuel).
Definition call (fuel : nat) (c : Call) : M Value :=
  call_with (fireChangedEvent fuel) c.

(** A caller's sequence of calls: the next call is made whether the
    previous one returned or threw, and the outcomes are collected.  A
    call that does not come back ends the sequence. *)
Fixpoint calls (fuel : nat) (cs : list Call) (s : t) : t * list (Outcome Value) :=
  match cs with
  | [] => (s, [])
  | c :: cs' =>
      match call fuel c s with
      | (s1, OutOfFuel) => (s1, [OutOfFuel])
      | (s1, o) =>
          let (s2, os) := calls fuel cs' s1 in
          (s2, o :: os)
      end
  end.
End WithListeners.

(** *** Per-frame synchronisation *)

(** The body of the loop of [renderFrame] for the label [r]. *)
Definition renderFrame_step (cameraPosition : Cartesian3) (s : t) (r : Ref) : t :=
  match store s !! r with
  | None => s
  | Some l =>
      let labelScratch := DOMLabel._label l in
      if DOMLabel._show l then
        if dot_negative cameraPosition (DOMLabel._position l) then
          let e := mkElement (textContent labelScratch) "none"
                     (style_top labelScratch) (style_left labelScratch) in
          with_store (<[r := DOMLabel.set_label e l]> (store s)) s
        else
          match cartesianToCanvasCoordinates (_scene s) (DOMLabel._position l) with
          | Some (x, y) =>
              (* the three writes in the order of the source: each size is
                 read from the element as the writes before it left it *)
              let e1 := mkElement (textContent labelScratch) "block"
                          (style_top labelScratch) (style_left labelScratch) in
              let top :=
                num_to_string (num_sub (num_add (DOMLabel._vOffset l) y)
                                 (num_half (offsetHeight e1))) +:+ "px" in
              let e2 := mkElement (textContent e1) (style_display e1) top
                          (style_left e1) in
              let left :=
                num_to_string (num_sub (num_add (DOMLabel._hOffset l) x)
                                 (num_half (offsetWidth e2))) +:+ "px" in
              let e3 := mkElement (textContent e2) (style_display e2)
                          (style_top e2) left in
              with_store (<[r := DOMLabel.set_label e3 l]> (store s)) s
          | None => s
          end
      else s
  end.

Definition renderFrame (s : t) : t :=
  if _show s && negb (Nat.eqb (AssociativeArray.length (_labels s)) 0) then
    foldl (renderFrame_step (camera_position (_scene s))) s
      (AssociativeArray.values (_labels s))
  else s.
(** *** The read-only properties *)

(** [container], [values] and [show] hand out the fields; [values] is the
    array of the label map, in its order. *)
Definition container (s : t) : Container := _container s.
Definition values (s : t) : list nat := AssociativeArray.values (_labels s).
Definition show (s : t) : bool := _show s.

End WithHost.

(** ** Vocabulary of the statements *)

Section Vocabulary.
Context `{Host}.

(** A label with the display of its element replaced and nothing else. *)
Definition displayed (d : string) (l : DOMLabel.t) : DOMLabel.t :=
  DOMLabel.set_label
    (mkElement (textContent (DOMLabel._label l)) d
       (style_top (DOMLabel._label l)) (style_left (DOMLabel._label l))) l.

(** The id under which [add] files its argument. *)
Definition arg_id (s : t) (label : AddArg) : option Id :=
  match label with
  | ArgUndefined => None
  | ArgLabel r => DOMLabel.id <$> store s !! r
  | ArgOptions o => Some (DOMLabel.o_id o)
  end.

(** The state in which a failed [add] leaves: options were turned into a
    label object before the check. *)
Definition after_conversion (label : AddArg) (s : t) : t :=
  match label with
  | ArgOptions o => with_store (store s ++ [DOMLabel.new o]) s
  | _ => s
  end.

Definition duplicate_message (id : Id) : string :=
  "A label with id " +:+ id +:+ " already exists in this collection.".

(** *** Well-formed collections

    Every entry of the label map is filed under the id of its label, no id
    is filed twice, and the element of every label of the map is a child
    of the container.  Outside a notification nothing is pending. *)
Definition keyed (s : t) : Prop :=
  Forall (λ p, DOMLabel.id <$> store s !! p.2 = Some p.1) (_labels s).
Definition unique (s : t) : Prop := NoDup (_labels s).*1.
Definition attached (s : t) : Prop :=
  Forall (λ p, p.2 ∈ children (_container s)) (_labels s).
Definition settled (s : t) : Prop :=
  _firing s = true ∨ (_addedLabels s = [] ∧ _removedLabels s = []).
Definition sound (s : t) : Prop := keyed s ∧ unique s ∧ attached s.
Definition wf (s : t) : Prop := sound s ∧ settled s.

#[global] Instance wf_dec (s : t) : Decision (wf s).
Proof. unfold wf, sound, keyed, unique, attached, settled. apply _. Defined.

(** *** The shape of a notification log

    A log is read by a machine with three kinds of states: no raise is in
    progress and none is due; a raise is in progress, and a request was or
    was not deferred during it; a raise has returned with a deferred
    request, so that the replay is due.  A raise cannot begin inside a
    raise, and once a replay is due nothing but that raise can follow. *)
Inductive Phase :=
| Quiet
| Raising (deferred : bool)
| Owed.

Definition phase_step (p : Phase) (n : Notification) : option Phase :=
  match p, n with
  | Quiet, RaiseBegin _ _ => Some (Raising false)
  | Owed, RaiseBegin _ _ => Some (Raising false)
  | Raising _, Deferred => Some (Raising true)
  | Raising d, RaiseEnd => Some (if d then Owed else Quiet)
  | _, _ => None
  end.

Fixpoint phase_run (p : Phase) (ns : list Notification) : option Phase :=
  match ns with
  | [] => Some p
  | n :: ns' =>
      match phase_step p n with
      | Some p' => phase_run p' ns'
      | None => None
      end
  end.

(** The raises of a log. *)
Definition raises (ns : list Notification) : list (list nat * list nat) :=
  omap (λ n, match n with RaiseBegin a r => Some (a, r) | _ => None end) ns.

(** Listeners that leave the collection alone. *)
Definition quiet (listeners : list Listener) : Prop :=
  Forall (λ l : Listener, ∀ s added removed, l s added removed = []) listeners.

(** A listener that answers the arrival of the label [trigger] in the
    added array by the calls [cs], and does nothing otherwise. *)
Definition react (trigger : nat) (cs : list Call) : Listener :=
  λ _ added _, if bool_decide (trigger ∈ added) then cs else [].

(** What a method leaves alone before it asks for a notification. *)
Definition same_ctl (s s' : t) : Prop :=
  trace s' = trace s ∧ _firing s' = _firing s ∧ _refire s' = _refire s.
Definition same_pending (s s' : t) : Prop :=
  _addedLabels s' = _addedLabels s ∧ _removedLabels s' = _removedLabels s.

(** A notification routine that, called during a raise, only records the
    request. *)
Definition defers (fire : M unit) : Prop :=
  ∀ s, _firing s = true → fire s = (log Deferred (with_refire true s), Returned tt).

(** What calls made during a raise amount to: the raise stays in
    progress, every request for a notification is recorded as deferred and
    sets [_refire], and calls that made no request and returned have left
    the pending sets alone. *)
Definition deferring (s s' : t) (o : Outcome unit) : Prop :=
  _firing s' = true ∧ o ≠ OutOfFuel ∧ (sound s → sound s')
  ∧ ∃ k, trace s' = trace s ++ replicate k Deferred
         ∧ (k = 0 → _refire s' = _refire s ∧ (o = Returned tt → same_pending s s'))
         ∧ (k ≠ 0 → _refire s' = true).

(** The state in which a sequence of top-level calls finds the collection,
    against the state of the machine that reads the log. *)
Definition in_phase (s : t) (p : Phase) : Prop :=
  (p = Quiet ∧ _firing s = false) ∨ (∃ d, p = Raising d ∧ _firing s = true).

(** An outcome without its value. *)
Definition status {A} (o : Outcome A) : Outcome unit :=
  match o with
  | Returned _ => Returned tt
  | Threw e => Threw e
  | OutOfFuel => OutOfFuel
  end.

(** A method either ends without asking for a notification, and then has
    not touched the notification state, or ends with the notification
    routine, called once as its last step. *)
Definition shape (fire : M unit) {A} (m : M A) : Prop :=
  ∀ s s' o,
    m s = (s', o) →
    (same_ctl s s' ∧ o ≠ OutOfFuel
     ∧ ((∃ v, o = Returned v) → same_pending s s')
     ∧ (sound s → sound s' ∧ same_pending s s'))
    ∨ (∃ s1, same_ctl s s1 ∧ (sound s → sound s1) ∧ fire s1 = (s', status o)).
End Vocabulary.

(** ** A host to run the model on

    Integers stand in for JavaScript numbers, a scene is its camera
    position, and the projection fails for points whose first coordinate
    exceeds 1000. *)
Definition zdot (a b : Z * Z * Z) : Z :=
  (a.1.1 * b.1.1 + a.1.2 * b.1.2 + a.2 * b.2)%Z.

Definition zhost : Host := {|
  Num := Z;
  Cartesian3 := Z * Z * Z;
  Scene := Z * Z * Z;
  num_add := Z.add;
  num_sub := Z.sub;
  num_half := λ x, (x / 2)%Z;
  num_to_string := pretty;
  dot_negative := λ a b, (zdot a b <? 0)%Z;
  camera_position := λ sc, sc;
  cartesianToCanvasCoordinates :=
    λ _ p, if (1000 <? p.1.1)%Z then None else Some (p.1.1, p.1.2);
  offsetHeight := λ _, 10%Z;
  offsetWidth := λ _, 40%Z
|}.

(** The same host with a layout in which the sizes of an element depend on
    its style: an element that is not displayed has no size, as in a
    browser, and a displayed element is 60 wide while its top is '7px'
    and 40 wide otherwise. *)
Definition zhost_layout : Host := {|
  Num := Z;
  Cartesian3 := Z * Z * Z;
  Scene := Z * Z * Z;
  num_add := Z.add;
  num_sub := Z.sub;
  num_half := λ x, (x / 2)%Z;
  num_to_string := pretty;
  dot_negative := λ a b, (zdot a b <? 0)%Z;
  camera_position := λ sc, sc;
  cartesianToCanvasCoordinates :=
    λ _ p, if (1000 <? p.1.1)%Z then None else Some (p.1.1, p.1.2);
  offsetHeight := λ e, if String.eqb (style_display e) "none" then 0%Z else 10%Z;
  offsetWidth := λ e,
    if String.eqb (style_display e) "none" then 0%Z
    else if String.eqb (style_top e) "7px" then 60%Z else 40%Z
|}.

Section Examples.
#[local] Existing Instance zhost.

Definition zlabel (id : string) (position : Z * Z * Z) (display : string) : DOMLabel.t :=
  DOMLabel.mk id position id true 0%Z 0%Z false
    (mkElement id display "7px" "9px").

(** Four labels: in front of the camera, behind it, beyond the reach of
    the projection, and a second object with the id of the first. *)
Definition zstore : list DOMLabel.t :=
  [ zlabel "a" (0, 0, 5)%Z "block";
    zlabel "b" (0, 0, -5)%Z "block";
    zlabel "c" (2000, 0, 5)%Z "block";
    zlabel "a" (1, 1, 1)%Z "block" ].

Definition zcamera : Z * Z * Z := (0, 0, 10)%Z.

Definition zcontainer : Container := mkContainer EmptyString [].

(** A fresh collection over the store, shown. *)
Definition fresh : t :=
  mk zstore zcontainer zcamera [] [] [] true false false
     [addEventListener ScopeThis] [].

(** The collection after the first three labels were added, with no
    listener registered. *)
Definition three : t :=
  (calls [] 1 [CallAdd (ArgLabel 0); CallAdd (ArgLabel 1); CallAdd (ArgLabel 2)] fresh).1.

(** The same collection as a listener finds it during a raise. *)
Definition raising : t := with_firing true three.

(** A listener that answers the arrival of label 0 by adding label 1 and
    removing it again. *)
Definition add_then_remove : Listener :=
  λ _ added _,
    if bool_decide (0 ∈ added)
    then [CallAdd (ArgLabel 1); CallRemoveById (Some "b")]
    else [].

(** A listener that answers the arrival of label 0 by adding label 1 and
    emptying the collection. *)
Definition add_then_removeAll : Listener :=
  λ _ added _,
    if bool_decide (0 ∈ added)
    then [CallAdd (ArgLabel 1); CallRemoveAll]
    else [].
(** A collection holding one label whose own show flag is false. *)
Definition hidden_label : DOMLabel.t :=
  DOMLabel.mk "h" (0, 0, 5)%Z "h" false 0%Z 0%Z false (mkElement "h" "block" "7px" "9px").

Definition with_hidden_label : t :=
  (add [] 1 (ArgLabel 0)
     (mk [hidden_label] zcontainer zcamera [] [] [] true false false
        [addEventListener ScopeThis] [])).1.

(** The fresh collection as a listener finds it during a raise, and the
    same after the listener added label 0. *)
Definition raising_fresh : t := with_firing true fresh.
Definition raising_added : t := (add [] 0 (ArgLabel 0) raising_fresh).1.

(** The collection of three after a listener called removeAll during a
    raise: its labels are pending in the removed set. *)
Definition raising_emptied : t := (removeAll [] 0 raising).1.
End Examples.

Section LayoutExamples.
#[local] Existing Instance zhost_layout.

(** A label in front of the camera whose element is not displayed, as an
    earlier frame leaves the element of a label that was behind the
    camera, and the shown collection that holds it. *)
Definition undisplayed_label : DOMLabel.t :=
  DOMLabel.mk "a" (0, 0, 5)%Z "a" true 0%Z 0%Z false (mkElement "a" "none" "7px" "9px").

Definition reappearing : t :=
  (add [] 1 (ArgLabel 0)
     (mk [undisplayed_label] (mkContainer EmptyString []) (0, 0, 10)%Z [] [] [] true false false
        [addEventListener ScopeThis] [])).1.
End LayoutExamples.

(** ** Properties *)

(** *** AssociativeArray *)

Lemma AA_get_None (a : list (string * nat)) k :
  AssociativeArray.get a k = None ↔ k ∉ a.*1.
Proof.
  induction a as [| [k' v] a IH]; simpl.
  - split; [intros _; apply not_elem_of_nil | done].
  - case_bool_decide as Hk.
    + subst. split; [done |]. intros Hn. exfalso. apply Hn. left.
    + rewrite IH. rewrite not_elem_of_cons. naive_solver.
Qed.

Lemma AA_get_Some (a : list (string * nat)) k v :
  AssociativeArray.get a k = Some v → (k, v) ∈ a.
Proof.
  induction a as [| [k' v'] a IH]; simpl; [done |].
  case_bool_decide as Hk.
  - intros [= ->]. subst. left.
  - intros Hg. right. auto.
Qed.

Lemma AA_get_unique (a : list (string * nat)) k v :
  NoDup a.*1 → (k, v) ∈ a → AssociativeArray.get a k = Some v.
Proof.
  induction a as [| [k' v'] a IH]; simpl; intros Hnd Hin.
  - by apply elem_of_nil in Hin.
  - apply NoDup_cons in Hnd as [Hk' Hnd].
    apply elem_of_cons in Hin as [[= -> ->] | Hin].
    + by rewrite bool_decide_eq_true_2.
    + rewrite bool_decide_eq_false_2; [auto |].
      intros ->. apply Hk'. by apply (list_elem_of_fmap_2 fst _ (k, v)).
Qed.

Lemma AA_contains_false (a : list (string * nat)) k :
  AssociativeArray.contains a k = false ↔ k ∉ a.*1.
Proof.
  unfold AssociativeArray.contains. rewrite <- AA_get_None.
  destruct (AssociativeArray.get a k); naive_solver.
Qed.

Lemma AA_delete_elem (a : list (string * nat)) k p :
  p ∈ AssociativeArray.delete a k ↔ p ∈ a ∧ p.1 ≠ k.
Proof.
  induction a as [| [k' v'] a IH]; simpl.
  - rewrite elem_of_nil. naive_solver.
  - case_bool_decide as Hk.
    + rewrite IH, elem_of_cons. subst. simpl. naive_solver.
    + rewrite !elem_of_cons, IH. naive_solver.
Qed.

Lemma AA_delete_absent (a : list (string * nat)) k :
  k ∉ a.*1 → AssociativeArray.delete a k = a.
Proof.
  induction a as [| [k' v'] a IH]; simpl; [done |].
  rewrite not_elem_of_cons. intros [Hne Hk].
  rewrite bool_decide_eq_false_2 by done. by rewrite IH.
Qed.

Lemma AA_delete_keys (a : list (string * nat)) k k' :
  k' ∈ (AssociativeArray.delete a k).*1 → k' ∈ a.*1 ∧ k' ≠ k.
Proof.
  intros Hin. apply list_elem_of_fmap in Hin as [p [-> Hp]].
  apply AA_delete_elem in Hp as [Hp Hne]. split; [| done].
  by apply list_elem_of_fmap_2.
Qed.

Lemma AA_delete_NoDup (a : list (string * nat)) k :
  NoDup a.*1 → NoDup (AssociativeArray.delete a k).*1.
Proof.
  induction a as [| [k' v'] a IH]; simpl; [done |].
  intros Hnd. apply NoDup_cons in Hnd as [Hk' Hnd].
  case_bool_decide; [auto |]. simpl. apply NoDup_cons. split; [| auto].
  intros Hin. by apply AA_delete_keys in Hin as [? _].
Qed.

Lemma AA_get_delete (a : list (string * nat)) k :
  AssociativeArray.get (AssociativeArray.delete a k) k = None.
Proof.
  apply AA_get_None. intros Hin. by apply AA_delete_keys in Hin as [_ ?].
Qed.

Lemma AA_set_fresh (a : list (string * nat)) k v :
  k ∉ a.*1 → AssociativeArray.set a k v = a ++ [(k, v)].
Proof.
  intros Hk. unfold AssociativeArray.set.
  rewrite bool_decide_eq_false_2.
  - by rewrite AA_delete_absent.
  - apply AA_get_None in Hk. congruence.
Qed.

Lemma AA_delete_snoc (a : list (string * nat)) k v :
  k ∉ a.*1 → AssociativeArray.delete (a ++ [(k, v)]) k = a.
Proof.
  induction a as [| [k' v'] a IH]; simpl.
  - intros _. by rewrite bool_decide_eq_true_2.
  - rewrite not_elem_of_cons. intros [Hne Hk].
    rewrite bool_decide_eq_false_2 by done. by rewrite IH.
Qed.

Lemma AA_get_snoc (a : list (string * nat)) k v :
  k ∉ a.*1 → AssociativeArray.get (a ++ [(k, v)]) k = Some v.
Proof.
  induction a as [| [k' v'] a IH]; simpl.
  - intros _. by rewrite bool_decide_eq_true_2.
  - rewrite not_elem_of_cons. intros [Hne Hk].
    rewrite bool_decide_eq_false_2 by done. auto.
Qed.

Section Properties.
Context `{Host}.

(** *** Per-frame synchronisation *)

Lemma renderFrame_step_scene cam (s : t) r :
  _scene (renderFrame_step cam s r) = _scene s.
Proof.
  unfold renderFrame_step.
  repeat (case_match; simpl; try reflexivity).
Qed.

Lemma renderFrame_step_other cam (s : t) r r' :
  r ≠ r' → store (renderFrame_step cam s r') !! r = store s !! r.
Proof.
  intros Hne. unfold renderFrame_step.
  repeat (case_match; simpl; try reflexivity);
    by rewrite list_lookup_insert_ne.
Qed.

Lemma renderFrame_step_behind cam (s : t) r l :
  DOMLabel._show l = true →
  dot_negative cam (DOMLabel._position l) = true →
  store s !! r = Some l ∨ store s !! r = Some (displayed "none" l) →
  store (renderFrame_step cam s r) !! r = Some (displayed "none" l).
Proof.
  intros Hshow Hdot [Hl | Hl]; unfold renderFrame_step; rewrite Hl; simpl;
    rewrite Hshow, Hdot; simpl;
    (rewrite list_lookup_insert_eq by (by eapply lookup_lt_Some));
    reflexivity.
Qed.

Lemma renderFrame_loop_behind cam l r (rs : list nat) :
  DOMLabel._show l = true →
  dot_negative cam (DOMLabel._position l) = true →
  ∀ s : t,
    (store s !! r = Some l ∧ r ∈ rs) ∨ store s !! r = Some (displayed "none" l) →
    store (foldl (renderFrame_step cam) s rs) !! r = Some (displayed "none" l).
Proof.
  intros Hshow Hdot. induction rs as [| r' rs IH]; intros s Hs; simpl.
  - destruct Hs as [[_ Hin] | Hs]; [by apply elem_of_nil in Hin | done].
  - apply IH. destruct (decide (r = r')) as [<- | Hne].
    + right. apply renderFrame_step_behind; [done | done |].
      destruct Hs as [[Hs _] | Hs]; auto.
    + rewrite renderFrame_step_other by done.
      destruct Hs as [[Hs Hin] | Hs]; [left | by right].
      split; [done |]. apply elem_of_cons in Hin as [? | ?]; [congruence | done].
Qed.

Lemma renderFrame_step_offscreen cam (s : t) r l :
  dot_negative cam (DOMLabel._position l) = false →
  cartesianToCanvasCoordinates (_scene s) (DOMLabel._position l) = None →
  store s !! r = Some l →
  renderFrame_step cam s r = s.
Proof.
  intros Hdot Hproj Hl. unfold renderFrame_step. rewrite Hl, Hdot, Hproj.
  by destruct (DOMLabel._show l).
Qed.

Lemma renderFrame_loop_offscreen cam l r (rs : list nat) :
  dot_negative cam (DOMLabel._position l) = false →
  ∀ s : t,
    cartesianToCanvasCoordinates (_scene s) (DOMLabel._position l) = None →
    store s !! r = Some l →
    store (foldl (renderFrame_step cam) s rs) !! r = Some l.
Proof.
  intros Hdot. induction rs as [| r' rs IH]; intros s Hproj Hl; simpl; [done |].
  apply IH.
  - by rewrite renderFrame_step_scene.
  - destruct (decide (r = r')) as [<- | Hne].
    + by rewrite (renderFrame_step_offscreen cam s r l).
    + by rewrite renderFrame_step_other.
Qed.

(** C10. When the collection is not shown, or holds no label, a run of
    the per-frame synchronisation returns the state it was given: no
    element style and no field of the collection is written. *)
Theorem C10_renderFrame_idle (s : t) :
  _show s = false ∨ _labels s = [] → renderFrame s = s.
Proof.
  intros [Hs | Hl]; unfold renderFrame.
  - by rewrite Hs.
  - rewrite Hl. simpl. by rewrite andb_false_r.
Qed.

(** C4. In a frame of a shown collection, a label of the collection whose
    own show flag is set and whose position has a negative dot product
    with the camera position ends the frame with display 'none' and with
    the top and left it had before: it is hidden and not positioned. *)
Theorem C4_behind_camera_hidden (s : t) r l :
  _show s = true →
  r ∈ AssociativeArray.values (_labels s) →
  store s !! r = Some l →
  DOMLabel._show l = true →
  dot_negative (camera_position (_scene s)) (DOMLabel._position l) = true →
  store (renderFrame s) !! r = Some (displayed "none" l).
Proof.
  intros Hshow Hin Hl Hlshow Hdot. unfold renderFrame. rewrite Hshow.
  destruct (_labels s) as [| p ls] eqn:Hls; [by apply elem_of_nil in Hin |].
  simpl negb. simpl andb. cbv iota.
  apply renderFrame_loop_behind; auto.
Qed.

(** C3, amended. In a frame of a shown collection, a label whose own show
    flag is set, whose position is not behind the camera and whose
    projection is undefined is left as it was: the frame writes neither
    its display nor its top or left. *)
Theorem C3_offscreen_left_unchanged (s : t) r l :
  _show s = true →
  r ∈ AssociativeArray.values (_labels s) →
  store s !! r = Some l →
  DOMLabel._show l = true →
  dot_negative (camera_position (_scene s)) (DOMLabel._position l) = false →
  cartesianToCanvasCoordinates (_scene s) (DOMLabel._position l) = None →
  store (renderFrame s) !! r = Some l.
Proof.
  intros Hshow Hin Hl Hlshow Hdot Hproj. unfold renderFrame. rewrite Hshow.
  destruct (_labels s) as [| p ls] eqn:Hls; [by apply elem_of_nil in Hin |].
  simpl negb. simpl andb. cbv iota.
  by apply renderFrame_loop_offscreen.
Qed.

(** *** Failing calls *)

Lemma add_duplicate listeners fuel (s : t) label id :
  arg_id s label = Some id →
  AssociativeArray.contains (_labels s) id = true →
  add listeners fuel label s
  = (after_conversion label s, Threw (RuntimeError (duplicate_message id))).
Proof.
  intros Hid Hdup. unfold add, add_with.
  destruct label as [| r | o]; simpl in *.
  - discriminate.
  - destruct (store s !! r) as [l |] eqn:Hl; simpl in Hid; [| discriminate].
    injection Hid as <-. by rewrite Hdup.
  - injection Hid as <-.
    rewrite lookup_app_r by done. rewrite Nat.sub_diag. simpl.
    by rewrite Hdup.
Qed.

(** C5. [add] with a label, or with options, whose id is already a key of
    the collection throws the RuntimeError of the duplicate check; the
    label map, the two pending sets, the container and the notification
    log are what they were, and every label object that existed is
    untouched. *)
Theorem C5_add_duplicate_throws listeners fuel (s : t) label id :
  arg_id s label = Some id →
  AssociativeArray.contains (_labels s) id = true →
  ∃ s',
    add listeners fuel label s = (s', Threw (RuntimeError (duplicate_message id)))
    ∧ _labels s' = _labels s
    ∧ _addedLabels s' = _addedLabels s
    ∧ _removedLabels s' = _removedLabels s
    ∧ _container s' = _container s
    ∧ trace s' = trace s
    ∧ (∀ r l, store s !! r = Some l → store s' !! r = Some l)
    ∧ (∀ r, label = ArgLabel r → s' = s).
Proof.
  intros Hid Hdup. exists (after_conversion label s).
  split; [by apply add_duplicate |].
  destruct label as [| r | o]; simpl; repeat split; try done.
  intros r l Hl. by apply lookup_app_l_Some.
Qed.

(** C7, amended. A missing container or scene at construction, a missing
    value for show, a missing label for add and contains, a missing id
    for getById, and a missing container for the compass button throw a
    DeveloperError, and add with a duplicate id throws a RuntimeError;
    remove and removeById with an undefined argument return false and
    leave the state alone. *)
Theorem C7_missing_arguments listeners fuel (s : t) labels c sc sh
    (ViewModel : Type) (viewModel : option Scene → option Num → Outcome ViewModel) d :
  new labels None sc sh = Threw (DeveloperError "container is required.")
  ∧ new labels (Some c) None sh = Threw (DeveloperError "scene is required.")
  ∧ set_show None s = (s, Threw (DeveloperError "value is require"))
  ∧ add listeners fuel ArgUndefined s = (s, Threw (DeveloperError "label is required."))
  ∧ contains None s = Threw (DeveloperError "label is required.")
  ∧ getById None s = Threw (DeveloperError "id is required.")
  ∧ CompassButton.new ViewModel viewModel None sc d
    = Threw (DeveloperError "container is required.")
  ∧ (∀ label id,
       arg_id s label = Some id →
       AssociativeArray.contains (_labels s) id = true →
       (add listeners fuel label s).2 = Threw (RuntimeError (duplicate_message id)))
  ∧ remove listeners fuel None s = (s, Returned false)
  ∧ removeById listeners fuel None s = (s, Returned false).
Proof.
  repeat split; try reflexivity.
  intros label id Hid Hdup. by rewrite (add_duplicate _ _ _ _ id).
Qed.

(** *** The show property *)

(** C8. The code at a collection constructed with show omitted, then
    hidden and shown again.  The constructor registers renderFrame on the
    pre-render event with the collection as scope.  Hiding the collection
    records the flag, writes display 'none' on the container and calls
    removeEventListener(renderFrame) with no scope: no removal that names
    the scope of the registration is ever made.  A frame that still
    reaches the hidden collection changes nothing.  Showing the
    collection again writes display 'block' and registers renderFrame
    with the collection as scope a second time. *)
Theorem C8_hide_removes_without_scope labels (container : Container) (scene : Scene) :
  ∃ s s1 s2,
    new labels (Some container) (Some scene) None = Returned s
    ∧ _show s = true
    ∧ preRender s = [addEventListener ScopeThis]
    ∧ set_show (Some false) s = (s1, Returned tt)
    ∧ _show s1 = false
    ∧ display (_container s1) = "none"
    ∧ preRender s1 = [addEventListener ScopeThis; removeEventListener ScopeUndefined]
    ∧ (removeEventListener ScopeThis ∉ preRender s1)
    ∧ renderFrame s1 = s1
    ∧ set_show (Some true) s1 = (s2, Returned tt)
    ∧ _show s2 = true
    ∧ display (_container s2) = "block"
    ∧ preRender s2
      = [addEventListener ScopeThis; removeEventListener ScopeUndefined;
         addEventListener ScopeThis].
Proof.
  eexists. eexists. eexists.
  split; [reflexivity |]. split; [reflexivity |]. split; [reflexivity |].
  split; [reflexivity |]. split; [reflexivity |]. split; [reflexivity |].
  split; [reflexivity |].
  split.
  { cbn. intros Hin. apply elem_of_cons in Hin as [Heq | Hin]; [discriminate |].
    apply elem_of_cons in Hin as [Heq | Hin]; [discriminate |].
    by apply elem_of_nil in Hin. }
  split; [reflexivity |]. split; [reflexivity |]. split; [reflexivity |].
  split; reflexivity.
Qed.

(** *** contains *)

(** C9. For a label object [r] of the store, [contains] answers true
    exactly when the collection holds [r] itself under the id of [r]; when
    it holds another object under that id, the answer is false. *)
Theorem C9_contains_identity (s : t) r l :
  store s !! r = Some l →
  (contains (Some r) s = Returned true
   ↔ AssociativeArray.get (_labels s) (DOMLabel.id l) = Some r)
  ∧ (∀ r', AssociativeArray.get (_labels s) (DOMLabel.id l) = Some r' →
           r' ≠ r → contains (Some r) s = Returned false)
  ∧ (AssociativeArray.get (_labels s) (DOMLabel.id l) = None →
     contains (Some r) s = Returned false).
Proof.
  intros Hl. unfold contains. rewrite Hl. repeat split.
  - intros [= Hb]. by apply bool_decide_eq_true in Hb.
  - intros Hg. by rewrite bool_decide_eq_true_2.
  - intros r' Hg Hne. rewrite bool_decide_eq_false_2; [done |]. congruence.
  - intros Hg. rewrite bool_decide_eq_false_2; [done |]. congruence.
Qed.

(** *** What the methods do before they notify *)

Lemma keyed_store (s s' : t) :
  _labels s' = _labels s →
  (∀ r k, DOMLabel.id <$> store s !! r = Some k → DOMLabel.id <$> store s' !! r = Some k) →
  keyed s → keyed s'.
Proof.
  unfold keyed. intros -> Hst Hk. eapply Forall_impl; [exact Hk |].
  intros [k r]. simpl. apply Hst.
Qed.

Lemma insert_keeps_id (st : list DOMLabel.t) r l l' r' k :
  st !! r = Some l → DOMLabel.id l' = DOMLabel.id l →
  DOMLabel.id <$> st !! r' = Some k →
  DOMLabel.id <$> <[r := l']> st !! r' = Some k.
Proof.
  intros Hl Hid Hk. destruct (decide (r = r')) as [<- | Hne].
  - rewrite list_lookup_insert_eq by (by eapply lookup_lt_Some).
    rewrite Hl in Hk. simpl in *. congruence.
  - by rewrite list_lookup_insert_ne.
Qed.

Lemma alter_keeps_id (st : list DOMLabel.t) f r r' k :
  (∀ l, DOMLabel.id (f l) = DOMLabel.id l) →
  DOMLabel.id <$> st !! r' = Some k →
  DOMLabel.id <$> alter f r st !! r' = Some k.
Proof.
  intros Hf Hk. destruct (decide (r = r')) as [<- | Hne].
  - rewrite list_lookup_alter_eq. destruct (st !! r); simpl in *; [| done].
    by rewrite Hf.
  - by rewrite list_lookup_alter_ne.
Qed.

Lemma add_commit_store r l (s : t) :
  store (add_commit r l s) = <[r := DOMLabel.set_domlabelCollection true l]> (store s).
Proof. unfold add_commit. simpl. by case_match. Qed.

Lemma add_commit_labels r l (s : t) :
  _labels (add_commit r l s) = AssociativeArray.set (_labels s) (DOMLabel.id l) r.
Proof. unfold add_commit. simpl. by case_match. Qed.

Lemma add_commit_container r l (s : t) :
  _container (add_commit r l s) = appendChild r (_container s).
Proof. unfold add_commit. simpl. by case_match. Qed.

Lemma add_commit_ctl r l (s : t) : same_ctl s (add_commit r l s).
Proof. unfold add_commit, same_ctl. simpl. by case_match. Qed.

Lemma add_commit_sound r l (s : t) :
  store s !! r = Some l →
  AssociativeArray.contains (_labels s) (DOMLabel.id l) = false →
  sound s → sound (add_commit r l s).
Proof.
  intros Hl Hc (Hk & Hu & Ha). apply AA_contains_false in Hc.
  unfold sound, keyed, unique, attached.
  rewrite add_commit_store, add_commit_labels, add_commit_container.
  rewrite AA_set_fresh by done. repeat split.
  - apply Forall_app. split.
    + eapply Forall_impl; [exact Hk |]. intros [k r']. simpl.
      by apply insert_keeps_id with l.
    + apply Forall_singleton. simpl.
      rewrite list_lookup_insert_eq by (by eapply lookup_lt_Some). done.
  - rewrite fmap_app. apply NoDup_app. repeat split; [done | | apply NoDup_singleton].
    intros k Hin Hk'. apply list_elem_of_singleton in Hk'. simpl in Hk'. by subst.
  - apply Forall_app. split.
    + eapply Forall_impl; [exact Ha |]. intros [k r']. simpl. intros Hin.
      apply elem_of_app. destruct (decide (r' = r)) as [-> | Hne].
      * right. apply list_elem_of_singleton. done.
      * left. by apply list_elem_of_filter.
    + apply Forall_singleton. simpl. apply elem_of_app. right.
      by apply list_elem_of_singleton.
Qed.

Lemma removeById_commit_store id r (s : t) :
  store (removeById_commit id r s)
  = alter (DOMLabel.set_domlabelCollection false) r (store s).
Proof. unfold removeById_commit. simpl. by case_match. Qed.

Lemma removeById_commit_labels id r (s : t) :
  _labels (removeById_commit id r s)
  = AssociativeArray.delete (AssociativeArray.delete (_labels s) id) id.
Proof. unfold removeById_commit. simpl. by case_match. Qed.

Lemma removeById_commit_container id r (s : t) :
  _container (removeById_commit id r s) = _container s.
Proof. unfold removeById_commit. simpl. by case_match. Qed.

Lemma removeById_commit_ctl id r (s : t) : same_ctl s (removeById_commit id r s).
Proof. unfold removeById_commit, same_ctl. simpl. by case_match. Qed.

Lemma AA_delete_twice (a : list (string * nat)) k :
  AssociativeArray.delete (AssociativeArray.delete a k) k = AssociativeArray.delete a k.
Proof.
  apply AA_delete_absent. intros Hin. by apply AA_delete_keys in Hin as [_ ?].
Qed.

(** Under the invariant the label found under an id is a child of the
    container, so that its detachment cannot throw. *)
Lemma sound_child (s : t) id r :
  sound s → AssociativeArray.get (_labels s) id = Some r →
  r ∈ children (_container s) ∧ DOMLabel.id <$> store s !! r = Some id.
Proof.
  intros (Hk & Hu & Ha) Hg. apply AA_get_Some in Hg.
  unfold attached, keyed in *. rewrite Forall_forall in Ha, Hk.
  split; [apply (Ha _ Hg) | apply (Hk _ Hg)].
Qed.

Lemma removeById_sound id r c (s : t) :
  AssociativeArray.get (_labels s) id = Some r →
  removeChild r (_container s) = Some c →
  sound s → sound (with_container c (removeById_commit id r s)).
Proof.
  intros Hg Hc Hs. pose proof Hs as (Hk & Hu & Ha).
  unfold removeChild in Hc. case_bool_decide; [| done]. injection Hc as <-.
  unfold sound, keyed, unique, attached.
  cbn [with_container store _labels _container children].
  rewrite removeById_commit_store, removeById_commit_labels, AA_delete_twice.
  repeat split.
  - apply Forall_forall. intros [k r'] Hin. simpl.
    apply AA_delete_elem in Hin as [Hin _].
    unfold keyed in Hk. rewrite Forall_forall in Hk.
    apply alter_keeps_id; [done |]. apply (Hk _ Hin).
  - by apply AA_delete_NoDup.
  - apply Forall_forall. intros [k r'] Hin. simpl.
    apply AA_delete_elem in Hin as [Hin Hne]. simpl in Hne.
    apply list_elem_of_filter. split.
    + intros ->. apply Hne.
      unfold keyed in Hk. rewrite Forall_forall in Hk.
      pose proof (Hk _ Hin) as Hk1. simpl in Hk1.
      destruct (sound_child s id r Hs Hg) as [_ Hk2]. congruence.
    + unfold attached in Ha. rewrite Forall_forall in Ha. apply (Ha _ Hin).
Qed.

Lemma removeChild_elem r c c' x :
  removeChild r c = Some c' →
  (x ∈ children c' ↔ x ∈ children c ∧ x ≠ r) ∧ display c' = display c.
Proof.
  unfold removeChild. case_bool_decide; [| done]. intros [= <-]. simpl.
  split; [| done]. rewrite list_elem_of_filter. naive_solver.
Qed.

Lemma removeAll_step_frame r (s s' : t) o :
  removeAll_step r s = (s', o) →
  same_ctl s s' ∧ o ≠ OutOfFuel
  ∧ _labels s' = _labels s ∧ _addedLabels s' = _addedLabels s
  ∧ (∀ r' k, DOMLabel.id <$> store s !! r' = Some k →
             DOMLabel.id <$> store s' !! r' = Some k)
  ∧ (∀ x, x ∈ children (_container s') → x ∈ children (_container s))
  ∧ (∀ x, x ≠ r → x ∈ children (_container s) → x ∈ children (_container s')).
Proof.
  unfold removeAll_step, same_ctl.
  destruct (store s !! r) as [l |] eqn:Hl.
  2: { intros [= <- <-]. repeat split; auto; done. }
  destruct (AssociativeArray.get (_addedLabels s) (DOMLabel.id l)).
  { intros [= <- <-]. repeat split; auto; done. }
  cbn [with_store _container].
  destruct (removeChild r (_container s)) as [c |] eqn:Hc.
  - intros [= <- <-]. cbn. repeat split; try done.
    + intros r' k. by apply insert_keeps_id with l.
    + intros x Hx. by apply (removeChild_elem _ _ _ x Hc) in Hx as [? _].
    + intros x Hne Hx. by apply (removeChild_elem _ _ _ x Hc).
  - intros [= <- <-]. cbn. repeat split; try done.
    intros r' k. by apply insert_keeps_id with l.
Qed.

Lemma removeAll_step_ok r (s : t) :
  is_Some (store s !! r) → r ∈ children (_container s) →
  ∃ s', removeAll_step r s = (s', Returned tt).
Proof.
  intros [l Hl] Hin. unfold removeAll_step. rewrite Hl.
  destruct (AssociativeArray.get (_addedLabels s) (DOMLabel.id l)); [by eexists |].
  cbn [with_store _container]. unfold removeChild.
  rewrite bool_decide_eq_true_2 by done. by eexists.
Qed.

Lemma removeAll_loop_frame rs :
  ∀ (s s' : t) o,
    removeAll_loop rs s = (s', o) →
    same_ctl s s' ∧ o ≠ OutOfFuel
    ∧ _labels s' = _labels s ∧ _addedLabels s' = _addedLabels s
    ∧ (∀ r' k, DOMLabel.id <$> store s !! r' = Some k →
               DOMLabel.id <$> store s' !! r' = Some k)
    ∧ (∀ x, x ∈ children (_container s') → x ∈ children (_container s)).
Proof.
  induction rs as [| r rs IH]; intros s s' o; simpl.
  - intros [= <- <-]. unfold same_ctl. repeat split; auto; done.
  - unfold bind. destruct (removeAll_step r s) as [s1 o1] eqn:Hstep.
    apply removeAll_step_frame in Hstep
      as ((Ht & Hf & Hr) & Ho & Hl & Had & Hst & Hch & _).
    destruct o1 as [[] | e |].
    + intros Hloop. apply IH in Hloop
        as ((Ht' & Hf' & Hr') & Ho' & Hl' & Had' & Hst' & Hch').
      unfold same_ctl. repeat split; try congruence; auto.
    + intros [= <- <-]. unfold same_ctl. repeat split; auto; done.
    + done.
Qed.

Lemma removeAll_loop_ok rs :
  NoDup rs →
  ∀ s : t,
    Forall (λ r, is_Some (store s !! r) ∧ r ∈ children (_container s)) rs →
    ∃ s', removeAll_loop rs s = (s', Returned tt).
Proof.
  induction 1 as [| r rs Hnotin Hnd IH]; intros s Hall; simpl.
  - by eexists.
  - apply Forall_cons in Hall as [[Hl Hin] Hall].
    destruct (removeAll_step_ok r s Hl Hin) as [s1 Hstep].
    unfold bind. rewrite Hstep.
    apply removeAll_step_frame in Hstep as (_ & _ & _ & _ & Hst & _ & Hch).
    apply IH. rewrite Forall_forall in Hall. apply Forall_forall.
    intros x Hx. destruct (Hall x Hx) as [[l Hxl] Hxin]. split.
    + specialize (Hst x (DOMLabel.id l)). rewrite Hxl in Hst.
      specialize (Hst eq_refl). by destruct (store s1 !! x).
    + apply Hch; [| done]. intros ->. done.
Qed.

(** Under the invariant the labels of the map are distinct objects. *)
Lemma sound_values_NoDup (s : t) : sound s → NoDup (AssociativeArray.values (_labels s)).
Proof.
  intros (Hk & Hu & _). unfold keyed, unique, AssociativeArray.values in *.
  induction (_labels s) as [| [k r] a IH]; simpl; [constructor |].
  apply Forall_cons in Hk as [Hkr Hk]. simpl in *.
  apply NoDup_cons in Hu as [Hnk Hu]. apply NoDup_cons. split; [| auto].
  intros Hin. apply list_elem_of_fmap in Hin as [[k' r'] [Heq Hin]]. simpl in Heq.
  subst r'. rewrite Forall_forall in Hk. pose proof (Hk _ Hin) as Hk'. simpl in Hk'.
  assert (k' = k) as -> by congruence.
  apply Hnk. by apply (list_elem_of_fmap_2 fst _ (k, r)).
Qed.

Lemma sound_loop_ok (s : t) :
  sound s → ∃ s', removeAll_loop (AssociativeArray.values (_labels s)) s = (s', Returned tt).
Proof.
  intros Hs. apply removeAll_loop_ok; [by apply sound_values_NoDup |].
  destruct Hs as (Hk & _ & Ha). unfold keyed, attached, AssociativeArray.values in *.
  apply Forall_fmap. rewrite Forall_forall in Hk, Ha. apply Forall_forall.
  intros [k r] Hin. simpl. split; [| apply (Ha _ Hin)].
  pose proof (Hk _ Hin) as Hk1. simpl in Hk1. by destruct (store s !! r).
Qed.

Lemma sound_empty (s : t) : _labels s = [] → sound s.
Proof.
  intros Hl. unfold sound, keyed, unique, attached. rewrite Hl.
  repeat split; constructor.
Qed.

(** *** The shape of the methods *)

Lemma status_unit (o : Outcome unit) : status o = o.
Proof. by destruct o as [[] | |]. Qed.

Lemma bind_ret_inv {A B} (m : M A) (f : A → B) (s s' : t) o :
  bind m (λ x, ret (f x)) s = (s', o) →
  ∃ o0, m s = (s', o0) ∧ status o0 = status o
        ∧ ((∃ v, o = Returned v) → ∃ v0, o0 = Returned v0).
Proof.
  unfold bind, ret. destruct (m s) as [s1 [a | e |]]; intros [= <- <-];
    eexists; (split; [reflexivity |]); (split; [done |]);
    first [by eauto | by intros [? ?]].
Qed.

Lemma shape_bind_ret fire {A B} (m : M A) (f : A → B) :
  shape fire m → shape fire (bind m (λ x, ret (f x))).
Proof.
  intros Hm s s' o Hrun.
  apply bind_ret_inv in Hrun as (o0 & Hrun & Hst & Hret).
  destruct (Hm s s' o0 Hrun) as [(Hc & Ho & Hp & Hs) | (s1 & Hc & Hs & Hf)].
  - left. split; [done |]. split; [| split].
    + intros ->. by destruct o0.
    + intros Hv. apply Hp. auto.
    + done.
  - right. exists s1. by rewrite <- Hst.
Qed.

Lemma same_ctl_refl (s : t) : same_ctl s s.
Proof. by unfold same_ctl. Qed.

Lemma same_pending_refl (s : t) : same_pending s s.
Proof. by unfold same_pending. Qed.

Lemma shape_stay (fire : M unit) {A} (s s' : t) (o : Outcome A) :
  same_ctl s s' → same_pending s s' → o ≠ OutOfFuel → (sound s → sound s') →
  (same_ctl s s' ∧ o ≠ OutOfFuel
   ∧ ((∃ v, o = Returned v) → same_pending s s')
   ∧ (sound s → sound s' ∧ same_pending s s'))
  ∨ (∃ s1, same_ctl s s1 ∧ (sound s → sound s1) ∧ fire s1 = (s', status o)).
Proof.
  intros Hc Hp Ho Hs. left.
  split; [done |]. split; [done |]. split; [done |]. auto.
Qed.

Lemma alloc_sound l (s : t) : sound s → sound (alloc l s).1.
Proof.
  intros (Hk & Hu & Ha). unfold alloc. simpl. repeat split; try done.
  apply (keyed_store s); [reflexivity | | exact Hk].
  intros r k. simpl. destruct (store s !! r) as [l' |] eqn:Hl; [| done].
  by rewrite (lookup_app_l_Some _ _ _ _ Hl).
Qed.

Lemma add_shape fire label : shape fire (add_with fire label).
Proof.
  intros s s' o. unfold add_with.
  destruct label as [| r | o'].
  - intros [= <- <-]. by apply shape_stay.
  - destruct (store s !! r) as [l |] eqn:Hl.
    2: { intros [= <- <-]. by apply shape_stay. }
    destruct (AssociativeArray.contains (_labels s) (DOMLabel.id l)) eqn:Hc.
    { intros [= <- <-]. by apply shape_stay. }
    intros Hrun. apply bind_ret_inv in Hrun as (o0 & Hrun & Hst & _).
    right. exists (add_commit r l s). split; [apply add_commit_ctl |].
    split; [by apply add_commit_sound |].
    by rewrite <- Hst, status_unit.
  - destruct (alloc (DOMLabel.new o') s) as [s0 r] eqn:Hal.
    assert (same_ctl s s0 ∧ same_pending s s0 ∧ (sound s → sound s0))
      as (Hc0 & Hp0 & Hs0).
    { pose proof (alloc_sound (DOMLabel.new o') s) as Hsd. rewrite Hal in Hsd.
      unfold alloc in Hal. injection Hal as <- <-.
      split; [done |]. split; [done |]. exact Hsd. }
    destruct (store s0 !! r) as [l |] eqn:Hl.
    2: { intros [= <- <-]. by apply shape_stay. }
    destruct (AssociativeArray.contains (_labels s0) (DOMLabel.id l)) eqn:Hc.
    { intros [= <- <-]. by apply shape_stay. }
    intros Hrun. apply bind_ret_inv in Hrun as (o0 & Hrun & Hst & _).
    right. exists (add_commit r l s0). split.
    { destruct Hc0 as (? & ? & ?), (add_commit_ctl r l s0) as (? & ? & ?).
      unfold same_ctl. repeat split; congruence. }
    split; [intros Hs; apply add_commit_sound; auto |].
    by rewrite <- Hst, status_unit.
Qed.

Lemma removeById_shape fire id : shape fire (removeById_with fire id).
Proof.
  intros s s' o. unfold removeById_with.
  destruct id as [id |].
  2: { intros [= <- <-]. by apply shape_stay. }
  destruct (AssociativeArray.get (_labels s) id) as [r |] eqn:Hg.
  2: { intros [= <- <-]. by apply shape_stay. }
  rewrite removeById_commit_container.
  destruct (removeChild r (_container s)) as [c |] eqn:Hc.
  - intros Hrun. apply bind_ret_inv in Hrun as (o0 & Hrun & Hst & _).
    right. exists (with_container c (removeById_commit id r s)).
    split; [apply (removeById_commit_ctl id r s) |].
    split; [by apply removeById_sound |].
    by rewrite <- Hst, status_unit.
  - intros [= <- <-]. left.
    split; [apply removeById_commit_ctl |]. split; [done |].
    split; [by intros [? ?] |].
    intros Hs. destruct (sound_child s id r Hs Hg) as [Hin _].
    unfold removeChild in Hc. by rewrite bool_decide_eq_true_2 in Hc.
Qed.

Lemma remove_shape fire label : shape fire (remove_with fire label).
Proof.
  intros s s' o. unfold remove_with.
  destruct label as [r |].
  2: { intros [= <- <-]. by apply shape_stay. }
  destruct (store s !! r) as [l |].
  2: { intros [= <- <-]. by apply shape_stay. }
  apply removeById_shape.
Qed.

Lemma removeAll_shape fire : shape fire (removeAll_with fire).
Proof.
  intros s s' o. unfold removeAll_with, bind.
  destruct (removeAll_loop (AssociativeArray.values (_labels s)) s)
    as [s1 o1] eqn:Hloop.
  pose proof (removeAll_loop_frame _ _ _ _ Hloop) as (Hc & Ho & _).
  destruct o1 as [[] | e |]; [| | done].
  - intros Hf. right. eexists. split; [| split; [| by rewrite status_unit]].
    + exact Hc.
    + intros _. by apply sound_empty.
  - intros [= <- <-]. left. split; [done |]. split; [done |].
    split; [by intros [? ?] |].
    intros Hs. destruct (sound_loop_ok s Hs) as [s2 Hok]. congruence.
Qed.

Lemma set_show_shape fire value : shape fire (set_show value).
Proof.
  intros s s' o. unfold set_show.
  destruct value as [v |].
  2: { intros [= <- <-]. by apply shape_stay. }
  case_bool_decide.
  { intros [= <- <-]. by apply shape_stay. }
  destruct v; intros [= <- <-]; by apply shape_stay.
Qed.

Lemma call_shape fire c : shape fire (call_with fire c).
Proof.
  destruct c; simpl; apply shape_bind_ret.
  - apply add_shape.
  - apply remove_shape.
  - apply removeById_shape.
  - apply removeAll_shape.
  - apply set_show_shape.
Qed.

(** *** Calls made during a raise *)

Lemma fireChangedEvent_defers listeners fuel : defers (fireChangedEvent listeners fuel).
Proof.
  intros s Hf. destruct fuel; simpl; unfold fireChangedEvent_with; by rewrite Hf.
Qed.

Lemma deferring_refl (s : t) : _firing s = true → deferring s s (Returned tt).
Proof.
  intros Hf. split; [done |]. split; [done |]. split; [done |].
  exists 0. simpl. rewrite app_nil_r. repeat split; done.
Qed.

Lemma deferring_trans (s s1 s2 : t) o :
  deferring s s1 (Returned tt) → deferring s1 s2 o → deferring s s2 o.
Proof.
  intros (Hf1 & _ & Hs1 & k1 & Ht1 & Hz1 & Hn1) (Hf2 & Ho2 & Hs2 & k2 & Ht2 & Hz2 & Hn2).
  split; [done |]. split; [done |]. split; [auto |].
  exists (k1 + k2). rewrite Ht2, Ht1, <- app_assoc, <- replicate_add.
  split; [done |]. split.
  - intros Hk. assert (k1 = 0 ∧ k2 = 0) as [-> ->] by lia.
    destruct (Hz1 eq_refl) as [Hr1 Hp1], (Hz2 eq_refl) as [Hr2 Hp2].
    split; [congruence |]. intros Ho.
    destruct (Hp1 eq_refl) as [? ?], (Hp2 Ho) as [? ?].
    unfold same_pending. split; congruence.
  - intros Hk. destruct (decide (k2 = 0)) as [-> | Hk2].
    + destruct (Hz2 eq_refl) as [Hr2 _]. rewrite Hr2. apply Hn1. lia.
    + by apply Hn2.
Qed.

Lemma call_firing fire c (s s' : t) o :
  defers fire → _firing s = true →
  call_with fire c s = (s', o) → deferring s s' (status o).
Proof.
  intros Hd Hf Hrun.
  destruct (call_shape fire c s s' o Hrun)
    as [((Ht & Hf' & Hr) & Ho & Hp & Hs) | (s1 & (Ht & Hf' & Hr) & Hs & Hfire)].
  - split; [congruence |]. split; [by destruct o |].
    split; [intros Hsd; by apply Hs |].
    exists 0. simpl. rewrite app_nil_r. split; [done |]. split; [| done].
    intros _. split; [done |]. intros Ho'. apply Hp. destruct o; eauto; done.
  - rewrite Hd in Hfire by congruence. injection Hfire as <- Ho.
    rewrite <- Ho. split; [simpl; congruence |]. split; [done |].
    split; [intros Hsd; by apply Hs |].
    exists 1. simpl. split; [by rewrite Ht |]. split; [lia | done].
Qed.

Lemma run_calls_firing fire cs :
  defers fire →
  ∀ (s s' : t) o,
    _firing s = true → run_calls fire cs s = (s', o) → deferring s s' o.
Proof.
  intros Hd. induction cs as [| c cs IH]; intros s s' o Hf; simpl.
  - intros [= <- <-]. by apply deferring_refl.
  - unfold bind. destruct (call_with fire c s) as [s1 o1] eqn:Hcall.
    apply call_firing in Hcall; [| done | done].
    destruct o1 as [v | e |]; simpl in Hcall.
    + intros Hrun. apply deferring_trans with s1; [done |].
      apply IH; [| done]. by destruct Hcall.
    + by intros [= <- <-].
    + by destruct Hcall as (_ & ? & _).
Qed.

Lemma invoke_firing fire ls added removed :
  defers fire →
  ∀ (s s' : t) o,
    _firing s = true → invoke fire ls added removed s = (s', o) → deferring s s' o.
Proof.
  intros Hd. induction ls as [| l ls IH]; intros s s' o Hf; simpl.
  - intros [= <- <-]. by apply deferring_refl.
  - unfold bind. destruct (run_calls fire (l s added removed) s) as [s1 o1] eqn:Hrun.
    apply run_calls_firing in Hrun; [| done | done].
    destruct o1 as [[] | e |].
    + intros Hinv. apply deferring_trans with s1; [done |].
      apply IH; [| done]. by destruct Hrun.
    + by intros [= <- <-].
    + by destruct Hrun as (_ & ? & _).
Qed.

(** *** Reading the log *)

Lemma phase_run_app p ns1 ns2 :
  phase_run p (ns1 ++ ns2) = phase_run p ns1 ≫= λ p', phase_run p' ns2.
Proof.
  revert p. induction ns1 as [| n ns1 IH]; intros p; simpl; [done |].
  destruct (phase_step p n); [apply IH | done].
Qed.

Lemma phase_run_deferred d k :
  phase_run (Raising d) (replicate k Deferred)
  = Some (Raising (d || negb (Nat.eqb k 0))).
Proof.
  revert d. induction k as [| k IH]; intros d; simpl.
  - by rewrite orb_false_r.
  - rewrite IH. simpl. by rewrite orb_true_r.
Qed.

(** *** The notification loop *)

Lemma raiseEvent_firing listeners fire added removed (s s' : t) o :
  defers fire → _firing s = true →
  raiseEvent listeners fire added removed s = (s', o) →
  _firing s' = true ∧ o ≠ OutOfFuel ∧ (sound s → sound s')
  ∧ ∃ k,
      trace s' = trace s ++ RaiseBegin added removed :: replicate k Deferred
                   ++ match o with Returned _ => [RaiseEnd] | _ => [] end
      ∧ (k = 0 → _refire s' = _refire s ∧ (o = Returned tt → same_pending s s'))
      ∧ (k ≠ 0 → _refire s' = true).
Proof.
  intros Hd Hf. unfold raiseEvent, bind.
  destruct (invoke fire listeners added removed (log (RaiseBegin added removed) s))
    as [s1 o1] eqn:Hinv.
  apply invoke_firing in Hinv as (Hf1 & Ho1 & Hs1 & k & Ht & Hz & Hn); [| done | done].
  simpl in Ht. rewrite <- app_assoc in Ht. simpl in Ht.
  destruct o1 as [[] | e |]; [| | done]; intros [= <- <-].
  - split; [done |]. split; [done |]. split; [done |].
    exists k. simpl. rewrite Ht, <- app_assoc. split; [done |]. split; [| done].
    intros Hk. destruct (Hz Hk) as [Hr Hp]. split; [done |].
    intros _. apply (Hp eq_refl).
  - split; [done |]. split; [done |]. split; [done |].
    exists k. rewrite Ht, app_nil_r. split; [done |]. split; [| done].
    intros Hk. destruct (Hz Hk) as [Hr _]. split; [done | done].
Qed.

Lemma do_while_spec listeners fire n :
  defers fire →
  ∀ (s s' : t) o,
    _firing s = true →
    do_while listeners fire n s = (s', o) →
    _firing s' = true ∧ (sound s → sound s')
    ∧ ∃ suffix,
        trace s' = trace s ++ suffix
        ∧ ((suffix = [] ∧ o = OutOfFuel)
           ∨ ∃ a r rest p,
               suffix = RaiseBegin a r :: rest
               ∧ phase_run (Raising false) rest = Some p
               ∧ match o with
                 | Returned _ => p = Quiet ∧ _addedLabels s' = [] ∧ _removedLabels s' = []
                 | Threw _ => ∃ d, p = Raising d
                 | OutOfFuel => p = Owed
                 end).
Proof.
  intros Hd. induction n as [| n IH]; intros s s' o Hf; simpl.
  - intros [= <- <-]. split; [done |]. split; [done |].
    exists []. rewrite app_nil_r. split; [done |]. by left.
  - unfold bind.
    match goal with
    | |- context [raiseEvent listeners fire ?a ?r ?s3] =>
        destruct (raiseEvent listeners fire a r s3) as [s4 o4] eqn:Hraise;
        apply raiseEvent_firing in Hraise
          as (Hf4 & Ho4 & Hs4 & k & Ht & Hz & Hn); [| done | done]
    end.
    simpl in Ht, Hz, Hs4.
    destruct o4 as [[] | e |]; [| | done].
    + destruct (_refire s4) eqn:Hre.
      * (* a request was deferred: the loop turns again *)
        assert (k ≠ 0) as Hk.
        { intros ->. destruct (Hz eq_refl) as [Hr _]. congruence. }
        intros Hloop. apply IH in Hloop as (Hf' & Hs' & suffix & Ht' & Hsuf); [| done].
        split; [done |]. split; [auto |].
        destruct Hsuf as [[-> ->] | (a & r & rest & p & -> & Hp & Ho)].
        -- eexists. split; [by rewrite Ht', Ht, app_nil_r |].
           right. do 3 eexists. exists Owed. split; [reflexivity |]. split; [| done].
           rewrite phase_run_app, phase_run_deferred. simpl.
           by destruct k.
        -- exists (RaiseBegin (AssociativeArray.values (_addedLabels s))
                     (AssociativeArray.values (_removedLabels s))
                   :: replicate k Deferred ++ RaiseEnd :: RaiseBegin a r :: rest).
           split.
           { rewrite Ht', Ht, <- app_assoc. simpl. by rewrite <- app_assoc. }
           right. do 3 eexists. exists p. split; [reflexivity |]. split; [| done].
           rewrite phase_run_app, phase_run_deferred. simpl.
           by destruct k.
      * (* no request: the loop ends *)
        assert (k = 0) as ->.
        { destruct (decide (k = 0)) as [| Hk]; [done |]. specialize (Hn Hk). congruence. }
        intros [= <- <-]. split; [done |]. split; [done |].
        eexists. split; [exact Ht |].
        right. do 3 eexists. exists Quiet. split; [reflexivity |]. split; [done |].
        destruct (Hz eq_refl) as [_ Hp]. destruct (Hp eq_refl) as [Ha Hr].
        simpl in Ha, Hr. by split.
    + intros [= <- <-]. split; [done |]. split; [done |].
      eexists. split; [exact Ht |].
      right. do 4 eexists. split; [reflexivity |].
      rewrite app_nil_r, phase_run_deferred. split; [reflexivity |]. eauto.
Qed.

Lemma length_zero_nil {A} (l : list A) : Nat.eqb (length l) 0 = true → l = [].
Proof. by destruct l. Qed.

(** A notification requested while no raise is in progress. *)
Lemma fireChangedEvent_quiet listeners fuel (s s' : t) o :
  _firing s = false →
  fireChangedEvent listeners fuel s = (s', o) →
  (sound s → sound s')
  ∧ ∃ suffix p,
      trace s' = trace s ++ suffix
      ∧ phase_run Quiet suffix = Some p
      ∧ match o with
        | Returned _ =>
            p = Quiet ∧ _firing s' = false
            ∧ _addedLabels s' = [] ∧ _removedLabels s' = []
        | Threw _ => (∃ d, p = Raising d) ∧ _firing s' = true
        | OutOfFuel => (p = Quiet ∨ p = Owed) ∧ _firing s' = true
        end.
Proof.
  intros Hf. destruct fuel as [| fuel]; simpl; unfold fireChangedEvent_with; rewrite Hf;
    destruct (negb (Nat.eqb (AssociativeArray.length (_addedLabels s)) 0)
              || negb (Nat.eqb (AssociativeArray.length (_removedLabels s)) 0)) eqn:Hpend.
  - intros [= <- <-]. split; [done |]. exists [], Quiet.
    rewrite app_nil_r. repeat split; auto.
  - apply orb_false_iff in Hpend as [Ha Hr].
    apply negb_false_iff, length_zero_nil in Ha, Hr.
    intros [= <- <-]. split; [done |]. exists [], Quiet.
    rewrite app_nil_r. repeat split; done.
  - unfold bind.
    destruct (do_while listeners (fireChangedEvent listeners fuel) (S fuel)
                (with_firing true s)) as [s2 o2] eqn:Hloop.
    apply do_while_spec in Hloop as (Hf2 & Hs2 & suffix & Ht & Hsuf);
      [| apply fireChangedEvent_defers | done].
    simpl in Ht, Hs2.
    destruct Hsuf as [[-> ->] | (a & r & rest & p & -> & Hp & Ho)].
    + intros [= <- <-]. split; [done |]. exists [], Quiet. repeat split; auto.
    + destruct o2 as [[] | e |]; intros [= <- <-].
      * destruct Ho as (-> & Ha & Hr). split; [done |].
        eexists _, Quiet. simpl. repeat split; done.
      * destruct Ho as [d ->]. split; [done |]. eexists _, _.
        split; [exact Ht |]. split; [exact Hp |]. eauto.
      * subst p. split; [done |]. eexists _, _.
        split; [exact Ht |]. split; [exact Hp |]. eauto.
  - apply orb_false_iff in Hpend as [Ha Hr].
    apply negb_false_iff, length_zero_nil in Ha, Hr.
    intros [= <- <-]. split; [done |]. exists [], Quiet.
    rewrite app_nil_r. repeat split; done.
Qed.

(** *** Calls made by a caller *)

Lemma call_in_phase listeners fuel c (s s' : t) o p :
  in_phase s p →
  call listeners fuel c s = (s', o) →
  (wf s → wf s')
  ∧ ∃ suffix p',
      trace s' = trace s ++ suffix
      ∧ phase_run p suffix = Some p'
      ∧ (o ≠ OutOfFuel → in_phase s' p')
      ∧ (o = OutOfFuel → p' = Quiet ∨ p' = Owed)
      ∧ (p = Quiet → (∃ v, o = Returned v) → p' = Quiet).
Proof.
  intros [[-> Hf] | (d & -> & Hf)] Hcall; unfold call in Hcall.
  - (* no raise in progress *)
    destruct (call_shape _ c s s' o Hcall)
      as [((Ht & Hf' & Hr) & Ho & Hp & Hs) | (s1 & (Ht & Hf' & Hr) & Hs & Hfire)].
    + split.
      { intros [Hsd [Hset | [Ha Hrm]]]; [congruence |].
        destruct (Hs Hsd) as [Hsd' [Ha' Hr']]. split; [done |].
        right. split; congruence. }
      exists [], Quiet. rewrite app_nil_r. repeat split; try done.
      intros _. left. split; [done | congruence].
    + apply fireChangedEvent_quiet in Hfire
        as (Hs' & suffix & p' & Ht' & Hp' & Hout); [| congruence].
      split.
      { intros [Hsd _]. split; [auto |].
        destruct (status o) as [[] | e |]; unfold settled.
        - right. by destruct Hout as (_ & _ & ? & ?).
        - left. by destruct Hout.
        - left. by destruct Hout. }
      exists suffix, p'. rewrite Ht', Ht. split; [done |]. split; [done |].
      destruct o as [v | e |]; simpl in Hout.
      * destruct Hout as (-> & Hf'' & _). repeat split; try done.
        intros _. by left.
      * destruct Hout as [[d ->] Hf'']. repeat split; try done.
        -- intros _. right. eauto.
        -- by intros _ [? ?].
      * destruct Hout as [Hp'' Hf'']. repeat split; try done.
        by intros _ [? ?].
  - (* a raise was left by an error: every request is deferred *)
    apply call_firing in Hcall
      as (Hf' & Ho & Hs & k & Ht & Hz & Hn); [| apply fireChangedEvent_defers | done].
    split.
    { intros [Hsd _]. split; [auto |]. by left. }
    exists (replicate k Deferred), (Raising (d || negb (Nat.eqb k 0))).
    split; [done |]. split; [apply phase_run_deferred |].
    repeat split; try done.
    + intros _. right. eauto.
    + intros ->. done.
Qed.

Lemma calls_in_phase listeners fuel cs :
  ∀ (s : t) p,
    in_phase s p →
    (wf s → wf (calls listeners fuel cs s).1)
    ∧ ∃ suffix p',
        trace (calls listeners fuel cs s).1 = trace s ++ suffix
        ∧ phase_run p suffix = Some p'
        ∧ (p' = Owed → OutOfFuel ∈ (calls listeners fuel cs s).2)
        ∧ (p = Quiet →
           Forall (λ o, ∃ v, o = Returned v) (calls listeners fuel cs s).2 →
           p' = Quiet).
Proof.
  induction cs as [| c cs IH]; intros s p Hin; simpl.
  - split; [done |]. exists [], p. rewrite app_nil_r. repeat split; try done.
    intros ->. by destruct Hin as [[? _] | (? & ? & _)].
  - destruct (call listeners fuel c s) as [s1 o] eqn:Hcall.
    destruct (call_in_phase _ _ _ _ _ _ _ Hin Hcall)
      as (Hwf & suffix & p1 & Ht & Hp & Hnext & Hout & Hret).
    destruct o as [v | e |].
    + destruct (IH s1 p1 (Hnext ltac:(done))) as (Hwf' & suffix' & p' & Ht' & Hp' & Howed & Hq).
      destruct (calls listeners fuel cs s1) as [s2 os] eqn:Hcs. simpl in *.
      split; [auto |].
      exists (suffix ++ suffix'), p'. rewrite Ht', Ht, <- app_assoc.
      split; [done |]. split; [by rewrite phase_run_app, Hp |].
      split.
      * intros Hp''. right. auto.
      * intros -> Hall. apply Forall_cons in Hall as [_ Hall].
        apply Hq; [| done]. apply Hret; eauto.
    + destruct (IH s1 p1 (Hnext ltac:(done))) as (Hwf' & suffix' & p' & Ht' & Hp' & Howed & Hq).
      destruct (calls listeners fuel cs s1) as [s2 os] eqn:Hcs. simpl in *.
      split; [auto |].
      exists (suffix ++ suffix'), p'. rewrite Ht', Ht, <- app_assoc.
      split; [done |]. split; [by rewrite phase_run_app, Hp |].
      split.
      * intros Hp''. right. auto.
      * intros _ Hall. apply Forall_cons in Hall as [[? ?] _]. done.
    + simpl. split; [done |]. exists suffix, p1.
      split; [done |]. split; [done |]. split.
      * intros _. left.
      * intros _ Hall. apply Forall_cons in Hall as [[? ?] _]. done.
Qed.

(** *** removeById, remove and removeAll on a well-formed collection *)

(** Where a request for a notification ends at once: during a raise it
    is recorded, and with nothing pending there is nothing to raise. *)
Lemma fireChangedEvent_settled listeners fuel (s : t) :
  settled s →
  fireChangedEvent listeners fuel s
  = (if _firing s then log Deferred (with_refire true s) else s, Returned tt).
Proof.
  intros Hs. destruct (_firing s) eqn:Hf.
  - by apply fireChangedEvent_defers.
  - destruct Hs as [? | [Ha Hr]]; [congruence |].
    destruct fuel; simpl; unfold fireChangedEvent_with; by rewrite Hf, Ha, Hr.
Qed.

Lemma removeById_commit_settled id r (s : t) :
  settled s → settled (removeById_commit id r s).
Proof.
  intros [Hf | [Ha Hr]].
  - left. by destruct (removeById_commit_ctl id r s) as (_ & -> & _).
  - right. unfold removeById_commit. simpl. rewrite Ha, Hr. simpl. done.
Qed.

(** C6. On a well-formed collection, [removeById] with the id of a label of
    the collection returns true; afterwards nothing is filed under the id,
    the label is not in the collection, its element is not a child of the
    container and its back-reference is undefined.  With an id that is
    not in the collection, or undefined, it returns false and changes
    nothing.  [remove] does the same with the id of its argument. *)
Theorem C6_removeById_detaches listeners fuel (s : t) :
  wf s →
  (∀ id r,
     AssociativeArray.get (_labels s) id = Some r →
     ∃ s',
       removeById listeners fuel (Some id) s = (s', Returned true)
       ∧ AssociativeArray.get (_labels s') id = None
       ∧ (r ∉ AssociativeArray.values (_labels s'))
       ∧ (r ∉ children (_container s'))
       ∧ DOMLabel._domlabelCollection <$> store s' !! r = Some false)
  ∧ (∀ id,
       AssociativeArray.get (_labels s) id = None →
       removeById listeners fuel (Some id) s = (s, Returned false))
  ∧ removeById listeners fuel None s = (s, Returned false)
  ∧ (∀ r l,
       store s !! r = Some l →
       remove listeners fuel (Some r) s
       = removeById listeners fuel (Some (DOMLabel.id l)) s)
  ∧ remove listeners fuel None s = (s, Returned false).
Proof.
  intros [Hsd Hset]. split; [| split; [| split; [| split]]].
  - intros id r Hg.
    destruct (sound_child s id r Hsd Hg) as [Hin Hid].
    unfold removeById, removeById_with. rewrite Hg.
    rewrite removeById_commit_container. unfold removeChild.
    rewrite bool_decide_eq_true_2 by done.
    set (c := mkContainer _ _).
    assert (sound (with_container c (removeById_commit id r s))) as Hsd'.
    { apply removeById_sound; [done | | done]. unfold removeChild.
      by rewrite bool_decide_eq_true_2. }
    unfold bind. rewrite fireChangedEvent_settled.
    2: { pose proof (removeById_commit_settled id r s Hset) as Hs1. exact Hs1. }
    assert (∀ s2 : t,
              store s2 = store (removeById_commit id r s) →
              _labels s2 = _labels (removeById_commit id r s) →
              _container s2 = c →
              AssociativeArray.get (_labels s2) id = None
              ∧ (r ∉ AssociativeArray.values (_labels s2))
              ∧ (r ∉ children (_container s2))
              ∧ DOMLabel._domlabelCollection <$> store s2 !! r = Some false) as Hfacts.
    { intros s2 Hst Hl Hc. rewrite Hst, Hl, Hc.
      rewrite removeById_commit_store, removeById_commit_labels, AA_delete_twice.
      split; [apply AA_get_delete |]. split; [| split].
      - intros Hr. unfold AssociativeArray.values in Hr.
        apply list_elem_of_fmap in Hr as [[k' r'] [Heq Hr]]. simpl in Heq. subst r'.
        apply AA_delete_elem in Hr as [Hr Hne]. simpl in Hne.
        destruct Hsd as (Hk & _ & _). unfold keyed in Hk. rewrite Forall_forall in Hk.
        pose proof (Hk _ Hr) as Hk'. simpl in Hk'. congruence.
      - unfold c. simpl. rewrite list_elem_of_filter. naive_solver.
      - rewrite list_lookup_alter_eq. destruct (store s !! r); [done | done]. }
    destruct (_firing (with_container c (removeById_commit id r s)));
      eexists; (split; [reflexivity |]); by apply Hfacts.
  - intros id Hg. unfold removeById, removeById_with. by rewrite Hg.
  - done.
  - intros r l Hl. unfold remove, remove_with. by rewrite Hl.
  - done.
Qed.




Lemma invoke_quiet fire listeners added removed (s : t) :
  quiet listeners → invoke fire listeners added removed s = (s, Returned tt).
Proof.
  unfold quiet. induction 1 as [| l ls Hl Hls IH]; simpl; [done |].
  unfold bind. rewrite Hl. simpl. exact IH.
Qed.


(** *** An add followed by the removal of the same label *)

Lemma add_commit_added r l (s : t) :
  _addedLabels (add_commit r l s)
  = if AssociativeArray.contains (_removedLabels s) (DOMLabel.id l)
    then _addedLabels s
    else AssociativeArray.set (_addedLabels s) (DOMLabel.id l) r.
Proof. unfold add_commit. simpl. by case_match. Qed.

Lemma add_commit_removed r l (s : t) :
  _removedLabels (add_commit r l s)
  = AssociativeArray.delete (_removedLabels s) (DOMLabel.id l).
Proof. unfold add_commit. simpl. by case_match. Qed.

Lemma removeById_commit_added id r (s : t) :
  _addedLabels (removeById_commit id r s)
  = AssociativeArray.delete (_addedLabels s) id.
Proof. unfold removeById_commit. simpl. by case_match. Qed.

Lemma removeById_commit_removed id r (s : t) :
  _removedLabels (removeById_commit id r s)
  = if AssociativeArray.contains (_addedLabels s) id
    then _removedLabels s
    else AssociativeArray.delete (_removedLabels s) id.
Proof. unfold removeById_commit. simpl. by case_match. Qed.

(** The state after the assignments of an [add] of a label with a fresh
    id, when nothing was pending. *)
Lemma add_commit_fresh r l (s : t) :
  DOMLabel.id l ∉ (_labels s).*1 →
  _addedLabels s = [] → _removedLabels s = [] →
  _labels (add_commit r l s) = _labels s ++ [(DOMLabel.id l, r)]
  ∧ _addedLabels (add_commit r l s) = [(DOMLabel.id l, r)]
  ∧ _removedLabels (add_commit r l s) = []
  ∧ r ∈ children (_container (add_commit r l s)).
Proof.
  intros Hid Ha Hr.
  rewrite add_commit_labels, add_commit_added, add_commit_removed, add_commit_container.
  rewrite Ha, Hr, AA_set_fresh by done. simpl. repeat split; try done.
  apply elem_of_app. right. by apply list_elem_of_singleton.
Qed.

(** The state after the assignments of a [removeById] of the label added
    last, when it is the one pending addition. *)
Lemma removeById_commit_last k x L (s : t) :
  _labels s = L ++ [(k, x)] → k ∉ L.*1 →
  _addedLabels s = [(k, x)] ∨ _addedLabels s = [] →
  _removedLabels s = [] →
  AssociativeArray.get (_labels s) k = Some x
  ∧ _labels (removeById_commit k x s) = L
  ∧ _addedLabels (removeById_commit k x s) = []
  ∧ _removedLabels (removeById_commit k x s) = [].
Proof.
  intros Hl Hk Ha Hr.
  rewrite removeById_commit_labels, removeById_commit_added, removeById_commit_removed.
  rewrite Hl, Hr, AA_delete_twice, AA_delete_snoc, AA_get_snoc by done.
  split; [done |]. split; [done |].
  destruct Ha as [-> | ->]; simpl.
  - rewrite bool_decide_eq_true_2 by done. split; [done |].
    unfold AssociativeArray.contains. simpl. by rewrite bool_decide_eq_true_2.
  - done.
Qed.

Lemma add_during_raise fire x lx (s : t) :
  defers fire → _firing s = true →
  store s !! x = Some lx →
  DOMLabel.id lx ∉ (_labels s).*1 →
  _addedLabels s = [] → _removedLabels s = [] →
  ∃ s',
    add_with fire (ArgLabel x) s = (s', Returned x)
    ∧ trace s' = trace s ++ [Deferred]
    ∧ _firing s' = true ∧ _refire s' = true
    ∧ _labels s' = _labels s ++ [(DOMLabel.id lx, x)]
    ∧ _addedLabels s' = [(DOMLabel.id lx, x)]
    ∧ _removedLabels s' = []
    ∧ x ∈ children (_container s').
Proof.
  intros Hd Hf Hl Hid Ha Hr. unfold add_with. rewrite Hl.
  rewrite (proj2 (AA_contains_false _ _) Hid).
  destruct (add_commit_ctl x lx s) as (Ht & Hf' & _).
  destruct (add_commit_fresh x lx s Hid Ha Hr) as (Hl' & Ha' & Hr' & Hc').
  unfold bind. rewrite Hd by congruence.
  eexists. split; [reflexivity |]. simpl. rewrite Ht.
  split_and!; try done; congruence.
Qed.

Lemma removeById_during_raise fire k x L (s : t) :
  defers fire → _firing s = true →
  _labels s = L ++ [(k, x)] → k ∉ L.*1 →
  _addedLabels s = [(k, x)] → _removedLabels s = [] →
  x ∈ children (_container s) →
  ∃ s',
    removeById_with fire (Some k) s = (s', Returned true)
    ∧ trace s' = trace s ++ [Deferred]
    ∧ _firing s' = true ∧ _refire s' = true
    ∧ _labels s' = L ∧ _addedLabels s' = [] ∧ _removedLabels s' = [].
Proof.
  intros Hd Hf Hl Hk Ha Hr Hin. unfold removeById_with.
  destruct (removeById_commit_last k x L s Hl Hk (or_introl Ha) Hr)
    as (Hg & Hl' & Ha' & Hr').
  rewrite Hg, removeById_commit_container. unfold removeChild.
  rewrite bool_decide_eq_true_2 by done.
  destruct (removeById_commit_ctl k x s) as (Ht & Hf' & _).
  unfold bind. rewrite Hd by (cbn [with_container _firing]; congruence).
  eexists. split; [reflexivity |].
  cbn [log with_refire with_trace with_container trace _firing _refire _labels
       _addedLabels _removedLabels].
  rewrite Ht. split_and!; try done; congruence.
Qed.

Lemma add_then_remove_during_raise fire x lx (s : t) :
  defers fire → _firing s = true →
  store s !! x = Some lx →
  DOMLabel.id lx ∉ (_labels s).*1 →
  _addedLabels s = [] → _removedLabels s = [] →
  ∃ s',
    run_calls fire [CallAdd (ArgLabel x); CallRemoveById (Some (DOMLabel.id lx))] s
    = (s', Returned tt)
    ∧ trace s' = trace s ++ [Deferred; Deferred]
    ∧ _firing s' = true ∧ _refire s' = true
    ∧ _labels s' = _labels s ∧ _addedLabels s' = [] ∧ _removedLabels s' = [].
Proof.
  intros Hd Hf Hl Hid Ha Hr.
  destruct (add_during_raise fire x lx s Hd Hf Hl Hid Ha Hr)
    as (s1 & Hadd & Ht1 & Hf1 & _ & Hl1 & Ha1 & Hr1 & Hc1).
  destruct (removeById_during_raise fire _ x _ s1 Hd Hf1 Hl1 Hid Ha1 Hr1 Hc1)
    as (s2 & Hrem & Ht2 & Hf2 & Hre2 & Hl2 & Ha2 & Hr2).
  exists s2. cbn [run_calls call_with]. unfold bind, ret.
  rewrite Hadd. cbv beta iota. rewrite Hrem. cbv beta iota.
  split; [done |]. rewrite Ht2, Ht1, <- app_assoc.
  split_and!; try done; congruence.
Qed.

Lemma do_while_turn listeners fire n (s s4 : t) :
  raiseEvent listeners fire
    (AssociativeArray.values (_addedLabels s)) (AssociativeArray.values (_removedLabels s))
    (with_removedLabels [] (with_addedLabels [] (with_refire false s)))
  = (s4, Returned tt) →
  do_while listeners fire (S n) s
  = if _refire s4 then do_while listeners fire n s4 else (s4, Returned tt).
Proof.
  intros Hraise. cbn [do_while]. unfold bind.
  cbn [with_refire _addedLabels _removedLabels with_addedLabels].
  unfold AssociativeArray.removeAll. by rewrite Hraise.
Qed.

Lemma raiseEvent_single fire (l : Listener) added removed (s s1 : t) :
  run_calls fire (l (log (RaiseBegin added removed) s) added removed)
    (log (RaiseBegin added removed) s)
  = (s1, Returned tt) →
  raiseEvent [l] fire added removed s = (log RaiseEnd s1, Returned tt).
Proof.
  intros Hrun. unfold raiseEvent, bind. cbn [invoke]. unfold bind.
  by rewrite Hrun.
Qed.

Lemma lookup_distinct_ids (st : list DOMLabel.t) r r' l l' :
  st !! r = Some l → st !! r' = Some l' → DOMLabel.id l ≠ DOMLabel.id l' → r ≠ r'.
Proof. intros Hl Hl' Hne ->. congruence. Qed.

(** An [add] outside a raise, answered by a listener that adds a second
    label and removes it again: the answer is deferred and replayed by one
    raise with empty arrays. *)
Lemma add_answered_by_add_remove fuel (s : t) tr x lt lx :
  _firing s = false → _addedLabels s = [] → _removedLabels s = [] →
  store s !! tr = Some lt → store s !! x = Some lx →
  DOMLabel.id lt ∉ (_labels s).*1 → DOMLabel.id lx ∉ (_labels s).*1 →
  DOMLabel.id lt ≠ DOMLabel.id lx →
  2 ≤ fuel →
  ∃ s',
    add [react tr [CallAdd (ArgLabel x); CallRemoveById (Some (DOMLabel.id lx))]]
      fuel (ArgLabel tr) s = (s', Returned tr)
    ∧ trace s' = trace s ++ [RaiseBegin [tr] []; Deferred; Deferred; RaiseEnd;
                             RaiseBegin [] []; RaiseEnd]
    ∧ _labels s' = _labels s ++ [(DOMLabel.id lt, tr)]
    ∧ _firing s' = false.
Proof.
  intros Hf Ha Hr Hlt Hlx Hidt Hidx Hne Hfuel.
  destruct fuel as [| [| fuel]]; [lia | lia |].
  set (ls := [react tr _]).
  destruct (add_commit_ctl tr lt s) as (Ht1 & Hf1 & _).
  destruct (add_commit_fresh tr lt s Hidt Ha Hr) as (Hl1 & Ha1 & Hr1 & _).
  set (s1 := add_commit tr lt s) in *.
  (* the state handed to the listener by the first raise *)
  set (s2 := log (RaiseBegin [tr] [])
               (with_removedLabels [] (with_addedLabels []
                  (with_refire false (with_firing true s1))))).
  destruct (add_then_remove_during_raise (fireChangedEvent ls (S fuel)) x lx s2)
    as (s3 & Hrun & Ht3 & Hf3 & Hre3 & Hl3 & Ha3 & Hr3);
    [apply fireChangedEvent_defers | done | | | done | done |].
  { unfold s2, s1. cbn [log with_trace with_removedLabels with_addedLabels
                        with_refire with_firing store].
    rewrite add_commit_store, list_lookup_insert_ne; [done |].
    by eapply lookup_distinct_ids. }
  { unfold s2. cbn [log with_trace with_removedLabels with_addedLabels
                    with_refire with_firing _labels].
    rewrite Hl1, fmap_app. apply not_elem_of_app. split; [done |].
    apply not_elem_of_cons. split; [by apply not_eq_sym | apply not_elem_of_nil]. }
  (* the first turn of the loop *)
  assert (raiseEvent ls (fireChangedEvent ls (S fuel)) [tr] []
            (with_removedLabels [] (with_addedLabels []
               (with_refire false (with_firing true s1))))
          = (log RaiseEnd s3, Returned tt)) as Hraise1.
  { apply raiseEvent_single. fold s2. unfold react.
    rewrite bool_decide_eq_true_2 by (by apply list_elem_of_singleton). exact Hrun. }
  (* the replay *)
  assert (raiseEvent ls (fireChangedEvent ls (S fuel)) [] []
            (with_removedLabels [] (with_addedLabels []
               (with_refire false (log RaiseEnd s3))))
          = (log RaiseEnd (log (RaiseBegin [] [])
               (with_removedLabels [] (with_addedLabels []
                  (with_refire false (log RaiseEnd s3))))), Returned tt)) as Hraise2.
  { apply raiseEvent_single. unfold react.
    rewrite bool_decide_eq_false_2 by apply not_elem_of_nil. done. }
  unfold add, add_with. rewrite Hlt, (proj2 (AA_contains_false _ _) Hidt).
  fold s1. unfold bind. cbn [fireChangedEvent]. unfold fireChangedEvent_with.
  rewrite Hf1, Hf, Ha1. cbn [AssociativeArray.length length Nat.eqb negb orb].
  unfold bind.
  rewrite (do_while_turn ls _ (S fuel) (with_firing true s1) (log RaiseEnd s3)).
  2: { cbn [with_firing _addedLabels _removedLabels]. rewrite Ha1, Hr1. exact Hraise1. }
  cbn [log with_trace _refire]. rewrite Hre3.
  erewrite (do_while_turn ls _ fuel (log RaiseEnd s3)).
  2: { cbn [log with_trace _addedLabels _removedLabels]. rewrite Ha3, Hr3. exact Hraise2. }
  cbn [log with_trace with_removedLabels with_addedLabels with_refire _refire].
  eexists. split; [reflexivity |].
  cbn [log with_trace with_removedLabels with_addedLabels with_refire with_firing
       trace _labels _firing].
  rewrite Ht3, Hl3. unfold s2.
  cbn [log with_trace with_removedLabels with_addedLabels with_refire with_firing
       trace _labels _firing].
  rewrite Ht1, Hl1, <- !app_assoc. done.
Qed.

Lemma raiseEvent_quiet listeners fire added removed (s : t) :
  quiet listeners →
  raiseEvent listeners fire added removed s
  = (log RaiseEnd (log (RaiseBegin added removed) s), Returned tt).
Proof. intros Hq. unfold raiseEvent, bind. by rewrite invoke_quiet. Qed.

Lemma add_outside_quiet listeners fuel (s : t) x lx :
  quiet listeners → fuel ≠ 0 →
  _firing s = false → _addedLabels s = [] → _removedLabels s = [] →
  store s !! x = Some lx →
  DOMLabel.id lx ∉ (_labels s).*1 →
  ∃ s',
    call listeners fuel (CallAdd (ArgLabel x)) s = (s', Returned (VLabel x))
    ∧ trace s' = trace s ++ [RaiseBegin [x] []; RaiseEnd]
    ∧ _labels s' = _labels s ++ [(DOMLabel.id lx, x)]
    ∧ _addedLabels s' = [] ∧ _removedLabels s' = []
    ∧ _firing s' = false
    ∧ x ∈ children (_container s').
Proof.
  intros Hq Hfuel Hf Ha Hr Hlx Hidx.
  destruct fuel as [| fuel]; [done |].
  destruct (add_commit_ctl x lx s) as (Ht1 & Hf1 & _).
  destruct (add_commit_fresh x lx s Hidx Ha Hr) as (Hl1 & Ha1 & Hr1 & Hc1).
  unfold call, call_with, bind, add_with.
  rewrite Hlx, (proj2 (AA_contains_false _ _) Hidx).
  unfold bind. cbn [fireChangedEvent]. unfold fireChangedEvent_with.
  rewrite Hf1, Hf, Ha1. cbn [AssociativeArray.length length Nat.eqb negb orb].
  unfold bind.
  erewrite (do_while_turn listeners _ fuel (with_firing true (add_commit x lx s))).
  2: { cbn [with_firing _addedLabels _removedLabels]. rewrite Ha1, Hr1.
       by apply raiseEvent_quiet. }
  cbn [log with_trace with_removedLabels with_addedLabels with_refire _refire ret].
  eexists. split; [reflexivity |].
  cbn [log with_trace with_removedLabels with_addedLabels with_refire with_firing
       trace _labels _addedLabels _removedLabels _firing _container].
  rewrite Ht1, <- app_assoc. by split_and!.
Qed.

Lemma removeById_outside listeners fuel k x L (s : t) :
  _firing s = false →
  _labels s = L ++ [(k, x)] → k ∉ L.*1 →
  _addedLabels s = [] → _removedLabels s = [] →
  x ∈ children (_container s) →
  ∃ s',
    call listeners fuel (CallRemoveById (Some k)) s = (s', Returned (VBool true))
    ∧ trace s' = trace s ∧ _labels s' = L ∧ _firing s' = false.
Proof.
  intros Hf Hl Hk Ha Hr Hin.
  destruct (removeById_commit_last k x L s Hl Hk (or_intror Ha) Hr)
    as (Hg & Hl3 & Ha3 & Hr3).
  destruct (removeById_commit_ctl k x s) as (Ht3 & Hf3 & _).
  unfold call, call_with, bind, removeById_with. rewrite Hg.
  rewrite removeById_commit_container. unfold removeChild.
  rewrite bool_decide_eq_true_2 by done.
  set (c := mkContainer _ _).
  assert (settled (with_container c (removeById_commit k x s))) as Hset.
  { right. cbn [with_container _addedLabels _removedLabels]. by split. }
  unfold bind. rewrite (fireChangedEvent_settled _ _ _ Hset).
  cbn [with_container _firing]. rewrite Hf3, Hf.
  eexists. split; [reflexivity |].
  cbn [with_container trace _labels _firing].
  split_and!; congruence.
Qed.

(** An [add] and the removal of the same label outside a raise, with
    listeners that leave the collection alone. *)
Lemma add_then_remove_outside listeners fuel (s : t) x lx :
  quiet listeners → fuel ≠ 0 →
  _firing s = false → _addedLabels s = [] → _removedLabels s = [] →
  store s !! x = Some lx →
  DOMLabel.id lx ∉ (_labels s).*1 →
  ∃ s',
    calls listeners fuel [CallAdd (ArgLabel x); CallRemoveById (Some (DOMLabel.id lx))] s
    = (s', [Returned (VLabel x); Returned (VBool true)])
    ∧ trace s' = trace s ++ [RaiseBegin [x] []; RaiseEnd]
    ∧ _labels s' = _labels s
    ∧ _firing s' = false.
Proof.
  intros Hq Hfuel Hf Ha Hr Hlx Hidx.
  destruct (add_outside_quiet listeners fuel s x lx Hq Hfuel Hf Ha Hr Hlx Hidx)
    as (s2 & Hadd & Ht2 & Hl2 & Ha2 & Hr2 & Hf2 & Hc2).
  destruct (removeById_outside listeners fuel _ x _ s2 Hf2 Hl2 Hidx Ha2 Hr2 Hc2)
    as (s3 & Hrem & Ht3 & Hl3 & Hf3).
  exists s3. cbn [calls]. rewrite Hadd, Hrem.
  split; [done |]. split_and!; congruence.
Qed.

(** C1. Whatever the listeners do and however much fuel the loop is given,
    a sequence of calls made on a collection outside a raise leaves a log
    that the machine of [phase_step] accepts: no raise begins inside a
    raise, a request made during a raise is recorded as deferred, and a
    raise during which a request was deferred is followed at once by the
    replay.  The log stops short of a replay that is due only when the
    fuel ran out, and it ends outside a raise when every call returned.
    An add followed by the removal of the same label raises the event
    once: outside a raise, with listeners that leave the collection alone,
    by the add itself; inside a raise, by the one replay that follows it. *)
Theorem C1_notifications_deferred_and_replayed :
  (∀ listeners fuel cs (s : t),
     _firing s = false →
     ∃ suffix p,
       trace (calls listeners fuel cs s).1 = trace s ++ suffix
       ∧ phase_run Quiet suffix = Some p
       ∧ (p = Owed → OutOfFuel ∈ (calls listeners fuel cs s).2)
       ∧ (Forall (λ o, ∃ v, o = Returned v) (calls listeners fuel cs s).2 → p = Quiet))
  ∧ (∀ listeners fuel (s : t) x lx,
       quiet listeners → fuel ≠ 0 →
       _firing s = false → _addedLabels s = [] → _removedLabels s = [] →
       store s !! x = Some lx →
       DOMLabel.id lx ∉ (_labels s).*1 →
       ∃ s',
         calls listeners fuel
           [CallAdd (ArgLabel x); CallRemoveById (Some (DOMLabel.id lx))] s
         = (s', [Returned (VLabel x); Returned (VBool true)])
         ∧ trace s' = trace s ++ [RaiseBegin [x] []; RaiseEnd]
         ∧ _labels s' = _labels s)
  ∧ (∀ fuel (s : t) tr x lt lx,
       _firing s = false → _addedLabels s = [] → _removedLabels s = [] →
       store s !! tr = Some lt → store s !! x = Some lx →
       DOMLabel.id lt ∉ (_labels s).*1 → DOMLabel.id lx ∉ (_labels s).*1 →
       DOMLabel.id lt ≠ DOMLabel.id lx →
       2 ≤ fuel →
       ∃ s',
         add [react tr [CallAdd (ArgLabel x); CallRemoveById (Some (DOMLabel.id lx))]]
           fuel (ArgLabel tr) s = (s', Returned tr)
         ∧ trace s' = trace s ++ [RaiseBegin [tr] []; Deferred; Deferred; RaiseEnd;
                                  RaiseBegin [] []; RaiseEnd]
         ∧ _labels s' = _labels s ++ [(DOMLabel.id lt, tr)]).
Proof.
  split; [| split].
  - intros listeners fuel cs s Hf.
    destruct (calls_in_phase listeners fuel cs s Quiet) as (_ & suffix & p & Ht & Hp & Ho & Hq).
    { by left. }
    exists suffix, p. split_and!; auto.
  - intros listeners fuel s x lx Hq Hfuel Hf Ha Hr Hlx Hidx.
    destruct (add_then_remove_outside listeners fuel s x lx) as (s' & ? & ? & ? & _);
      eauto.
  - intros fuel s tr x lt lx Hf Ha Hr Hlt Hlx Hidt Hidx Hne Hfuel.
    destruct (add_answered_by_add_remove fuel s tr x lt lx) as (s' & ? & ? & ? & _);
      eauto.
Qed.

(** Every call keeps a well-formed collection well formed, whatever it
    ends in; so do the frame synchronisation and the show property. *)
Lemma calls_wf listeners fuel cs (s : t) :
  wf s → wf (calls listeners fuel cs s).1.
Proof.
  intros Hwf.
  assert (∃ p, in_phase s p) as [p Hp].
  { destruct (_firing s) eqn:Hf; [exists (Raising false) | exists Quiet].
    - right. eauto.
    - by left. }
  by apply (calls_in_phase listeners fuel cs s p Hp).
Qed.

Lemma new_wf labels container scene show (s : t) :
  new labels container scene show = Returned s → wf s ∧ _firing s = false.
Proof.
  unfold new. destruct container; [| done]. destruct scene; [| done].
  intros [= <-]. split; [| done]. split; [by apply sound_empty |].
  right. by split.
Qed.

Lemma set_show_wf value (s : t) : wf s → wf (set_show value s).1.
Proof.
  intros Hwf. unfold set_show.
  destruct value as [v |]; [| done]. case_bool_decide; [done |].
  by destruct v.
Qed.

Lemma renderFrame_wf (s : t) : wf s → wf (renderFrame s).
Proof.
  assert (∀ cam rs (s : t), wf s → wf (foldl (renderFrame_step cam) s rs)) as Hloop.
  { intros cam rs. induction rs as [| r rs IH]; intros s0 Hwf; simpl; [done |].
    apply IH. destruct Hwf as [(Hk & Hu & Ha) Hset].
    unfold renderFrame_step.
    destruct (store s0 !! r) as [l |] eqn:Hl; [| done].
    assert (∀ e, wf (with_store (<[r := DOMLabel.set_label e l]> (store s0)) s0)) as Hw.
    { intros e. split; [| done]. split; [| done].
      apply (keyed_store s0); [done | | done].
      intros r' k. simpl. by apply insert_keeps_id with l. }
    destruct (DOMLabel._show l); [| done].
    destruct (dot_negative cam (DOMLabel._position l)); [apply Hw |].
    destruct (cartesianToCanvasCoordinates (_scene s0) (DOMLabel._position l))
      as [[x y] |]; [apply Hw | done]. }
  intros Hwf. unfold renderFrame. case_match; [by apply Hloop | done].
Qed.

(** *** Further properties of the methods *)

Lemma wf_outside (s : t) :
  wf s → _firing s = false → _addedLabels s = [] ∧ _removedLabels s = [].
Proof. intros [_ [Hf | Hp]] Hf'; [congruence | done]. Qed.

(** The state in which an [add] of a label with a fresh id, made outside a
    raise with nothing pending and listeners that leave the collection
    alone, ends. *)
Lemma add_outside_state listeners fuel (s : t) x lx :
  quiet listeners → fuel ≠ 0 →
  _firing s = false → _addedLabels s = [] → _removedLabels s = [] →
  store s !! x = Some lx →
  DOMLabel.id lx ∉ (_labels s).*1 →
  add listeners fuel (ArgLabel x) s
  = (with_firing false
       (log RaiseEnd
          (log (RaiseBegin [x] [])
             (with_removedLabels []
                (with_addedLabels []
                   (with_refire false (with_firing true (add_commit x lx s))))))),
     Returned x).
Proof.
  intros Hq Hfuel Hf Ha Hr Hlx Hidx.
  destruct fuel as [| fuel]; [done |].
  destruct (add_commit_ctl x lx s) as (Ht1 & Hf1 & _).
  destruct (add_commit_fresh x lx s Hidx Ha Hr) as (Hl1 & Ha1 & Hr1 & Hc1).
  unfold add, add_with.
  rewrite Hlx, (proj2 (AA_contains_false _ _) Hidx).
  unfold bind. cbn [fireChangedEvent]. unfold fireChangedEvent_with.
  rewrite Hf1, Hf, Ha1. cbn [AssociativeArray.length length Nat.eqb negb orb].
  unfold bind.
  erewrite (do_while_turn listeners _ fuel (with_firing true (add_commit x lx s))).
  2: { cbn [with_firing _addedLabels _removedLabels]. rewrite Ha1, Hr1.
       by apply raiseEvent_quiet. }
  cbn [log with_trace with_removedLabels with_addedLabels with_refire _refire ret].
  reflexivity.
Qed.

Lemma add_outside_facts listeners fuel (s : t) r l :
  quiet listeners → fuel ≠ 0 →
  _firing s = false → _addedLabels s = [] → _removedLabels s = [] →
  store s !! r = Some l →
  DOMLabel.id l ∉ (_labels s).*1 →
  ∃ s',
    add listeners fuel (ArgLabel r) s = (s', Returned r)
    ∧ _labels s' = _labels s ++ [(DOMLabel.id l, r)]
    ∧ children (_container s') = filter (λ x, x ≠ r) (children (_container s)) ++ [r]
    ∧ display (_container s') = display (_container s)
    ∧ store s' = <[r := DOMLabel.set_domlabelCollection true l]> (store s)
    ∧ trace s' = trace s ++ [RaiseBegin [r] []; RaiseEnd]
    ∧ _addedLabels s' = [] ∧ _removedLabels s' = [] ∧ _firing s' = false.
Proof.
  intros Hq Hfuel Hf Ha Hr Hl Hc.
  rewrite (add_outside_state listeners fuel s r l) by done.
  destruct (add_commit_ctl r l s) as (Ht1 & _ & _).
  destruct (add_commit_fresh r l s Hc Ha Hr) as (Hl1 & _ & _ & _).
  eexists. split; [reflexivity |].
  cbn [log with_trace with_removedLabels with_addedLabels with_refire with_firing
       trace _labels _addedLabels _removedLabels _firing _container store].
  rewrite Ht1, Hl1, add_commit_container, add_commit_store, <- app_assoc.
  by split_and!.
Qed.

(** X1. Outside a raise and with listeners that leave the collection
    alone, [add] of a label whose id is not in a well-formed collection
    returns the label, files it under its id at the end of the map,
    makes its element the last child of the container, sets its
    back-reference, and raises collectionChanged once, with the label as
    the only added one; afterwards nothing is pending. *)
Theorem X1_add_inserts listeners fuel (s : t) r l :
  wf s → _firing s = false → quiet listeners → fuel ≠ 0 →
  store s !! r = Some l →
  AssociativeArray.contains (_labels s) (DOMLabel.id l) = false →
  ∃ s',
    add listeners fuel (ArgLabel r) s = (s', Returned r)
    ∧ _labels s' = _labels s ++ [(DOMLabel.id l, r)]
    ∧ children (_container s') = filter (λ x, x ≠ r) (children (_container s)) ++ [r]
    ∧ display (_container s') = display (_container s)
    ∧ store s' = <[r := DOMLabel.set_domlabelCollection true l]> (store s)
    ∧ trace s' = trace s ++ [RaiseBegin [r] []; RaiseEnd]
    ∧ _addedLabels s' = [] ∧ _removedLabels s' = [] ∧ _firing s' = false.
Proof.
  intros Hwf Hf Hq Hfuel Hl Hc.
  destruct (wf_outside s Hwf Hf) as [Ha Hr].
  apply AA_contains_false in Hc.
  destruct (add_outside_facts listeners fuel s r l Hq Hfuel Hf Ha Hr Hl Hc)
    as (s' & Hrun & Hfacts).
  exists s'. by split.
Qed.

(** The state in which [removeById] of an id of a well-formed collection
    ends. *)
Lemma removeById_stored listeners fuel (s : t) id r :
  wf s →
  AssociativeArray.get (_labels s) id = Some r →
  removeById listeners fuel (Some id) s
  = (let s2 :=
       with_container
         (mkContainer (display (_container s))
            (filter (λ x, x ≠ r) (children (_container s))))
         (removeById_commit id r s) in
     if _firing s then log Deferred (with_refire true s2) else s2,
     Returned true).
Proof.
  intros [Hsd Hset] Hg.
  destruct (sound_child s id r Hsd Hg) as [Hin _].
  unfold removeById, removeById_with. rewrite Hg.
  rewrite removeById_commit_container. unfold removeChild.
  rewrite bool_decide_eq_true_2 by done.
  unfold bind. rewrite fireChangedEvent_settled.
  2: { exact (removeById_commit_settled id r s Hset). }
  cbn [with_container _firing].
  destruct (removeById_commit_ctl id r s) as (_ & -> & _).
  by destruct (_firing s).
Qed.



Lemma delete_values_filter (a : list (string * nat)) k r :
  (∀ p, p ∈ a → p.1 = k ↔ p.2 = r) →
  (AssociativeArray.delete a k).*2 = filter (λ x, x ≠ r) a.*2.
Proof.
  induction a as [| [k' r'] a IH]; intros Hkr; [done |].
  assert (∀ p, p ∈ a → p.1 = k ↔ p.2 = r) as Hrest
    by (intros p Hp; apply Hkr; by right).
  pose proof (Hkr (k', r') ltac:(left)) as Hhead. simpl in Hhead.
  cbn [AssociativeArray.delete fmap list_fmap snd]. case_bool_decide as Hk.
  - rewrite filter_cons_False by (intros Hne; apply Hne; by apply Hhead). auto.
  - rewrite filter_cons_True by (intros Hr; apply Hk; by apply Hhead).
    cbn [fmap list_fmap snd]. f_equal. auto.
Qed.

Lemma sound_key_ref (s : t) id r :
  sound s → AssociativeArray.get (_labels s) id = Some r →
  ∀ p, p ∈ _labels s → p.1 = id ↔ p.2 = r.
Proof.
  intros Hsd Hg [k x] Hp. simpl.
  destruct (sound_child s id r Hsd Hg) as [_ Hid].
  destruct Hsd as (Hk & Hu & _). split.
  - intros ->. pose proof (AA_get_unique _ _ _ Hu Hp). congruence.
  - intros ->. unfold keyed in Hk. rewrite Forall_forall in Hk.
    pose proof (Hk _ Hp) as Hk'. simpl in Hk'. congruence.
Qed.

(** What [removeById] leaves of a well-formed collection. *)
Lemma removeById_stored_facts listeners fuel (s : t) id r :
  wf s →
  AssociativeArray.get (_labels s) id = Some r →
  ∃ s',
    removeById listeners fuel (Some id) s = (s', Returned true)
    ∧ _labels s' = AssociativeArray.delete (_labels s) id
    ∧ children (_container s') = filter (λ x, x ≠ r) (children (_container s))
    ∧ store s' = alter (DOMLabel.set_domlabelCollection false) r (store s)
    ∧ _addedLabels s' = AssociativeArray.delete (_addedLabels s) id
    ∧ _removedLabels s'
      = (if AssociativeArray.contains (_addedLabels s) id
         then _removedLabels s
         else AssociativeArray.delete (_removedLabels s) id)
    ∧ trace s' = trace s ++ (if _firing s then [Deferred] else [])
    ∧ _firing s' = _firing s.
Proof.
  intros Hwf Hg. rewrite (removeById_stored listeners fuel s id r Hwf Hg).
  cbn zeta. eexists. split; [reflexivity |].
  destruct (removeById_commit_ctl id r s) as (Ht & Hf & _).
  destruct (_firing s) eqn:Hfs;
    cbn [log with_trace with_refire with_container trace _labels _container children
         store _addedLabels _removedLabels _firing];
    rewrite removeById_commit_labels, removeById_commit_store, removeById_commit_added,
      removeById_commit_removed, AA_delete_twice, Ht, Hf, ?app_nil_r;
    by split_and!.
Qed.

Lemma in_some_phase (s : t) : ∃ p, in_phase s p.
Proof.
  destruct (_firing s) eqn:Hf; [exists (Raising false) | exists Quiet].
  - right. eauto.
  - by left.
Qed.

Lemma call_wf listeners fuel c (s : t) : wf s → wf (call listeners fuel c s).1.
Proof.
  intros Hwf. destruct (in_some_phase s) as [p Hp].
  destruct (call listeners fuel c s) as [s1 o] eqn:Hc.
  by apply (call_in_phase _ _ _ _ _ _ _ Hp Hc).
Qed.

Lemma add_wf listeners fuel label (s : t) : wf s → wf (add listeners fuel label s).1.
Proof.
  intros Hwf. pose proof (call_wf listeners fuel (CallAdd label) s Hwf) as Hw.
  unfold call, call_with, bind in Hw. unfold add.
  by destruct (add_with (fireChangedEvent listeners fuel) label s) as [s1 [v | e |]].
Qed.

(** X2. Insert, look up, delete: after the [add] of X1, getById with the
    id returns the label and contains answers true for it; after
    removeById with the id, getById returns undefined, contains answers
    false, and the label map is what it was before the add. *)
Theorem X2_add_lookup_remove listeners fuel (s : t) r l :
  wf s → _firing s = false → quiet listeners → fuel ≠ 0 →
  store s !! r = Some l →
  AssociativeArray.contains (_labels s) (DOMLabel.id l) = false →
  ∃ s1 s2,
    add listeners fuel (ArgLabel r) s = (s1, Returned r)
    ∧ getById (Some (DOMLabel.id l)) s1 = Returned (Some r)
    ∧ contains (Some r) s1 = Returned true
    ∧ removeById listeners fuel (Some (DOMLabel.id l)) s1 = (s2, Returned true)
    ∧ getById (Some (DOMLabel.id l)) s2 = Returned None
    ∧ contains (Some r) s2 = Returned false
    ∧ _labels s2 = _labels s.
Proof.
  intros Hwf Hf Hq Hfuel Hl Hc.
  pose proof (proj1 (AA_contains_false _ _) Hc) as Hid.
  pose proof (add_wf listeners fuel (ArgLabel r) s Hwf) as Hwf1.
  destruct (wf_outside s Hwf Hf) as [Ha Hr].
  destruct (add_outside_facts listeners fuel s r l Hq Hfuel Hf Ha Hr Hl Hid)
    as (s1 & Hadd & Hls1 & _ & _ & Hst1 & _ & _ & _ & Hf1).
  rewrite Hadd in Hwf1. cbn [fst] in Hwf1.
  assert (store s1 !! r = Some (DOMLabel.set_domlabelCollection true l)) as Hlk1.
  { rewrite Hst1, list_lookup_insert_eq; [done |]. by eapply lookup_lt_Some. }
  assert (AssociativeArray.get (_labels s1) (DOMLabel.id l) = Some r) as Hg1.
  { rewrite Hls1. by apply AA_get_snoc. }
  destruct (removeById_stored_facts listeners fuel s1 _ r Hwf1 Hg1)
    as (s2 & Hrem & Hls2 & _ & Hst2 & _).
  exists s1, s2. split; [exact Hadd |].
  split; [unfold getById; by rewrite Hg1 |].
  split.
  { unfold contains. rewrite Hlk1. cbn [DOMLabel.id DOMLabel.set_domlabelCollection].
    by rewrite Hg1, bool_decide_eq_true_2. }
  split; [exact Hrem |].
  unfold getById, contains.
  rewrite Hls2, Hst2, Hls1, AA_delete_snoc by done.
  rewrite list_lookup_alter_eq, Hlk1.
  cbn [fmap option_fmap option_map DOMLabel.id DOMLabel.set_domlabelCollection].
  rewrite (proj2 (AA_get_None _ _) Hid).
  by rewrite bool_decide_eq_false_2.
Qed.

(** X3. [values] keeps the order of insertion: the [add] of X1 puts the
    label at the end, and removeById takes the removed label out and
    leaves the others in their order. *)
Theorem X3_values_order listeners fuel (s : t) :
  wf s →
  (∀ id r,
     AssociativeArray.get (_labels s) id = Some r →
     values (removeById listeners fuel (Some id) s).1
     = filter (λ x, x ≠ r) (values s))
  ∧ (_firing s = false → quiet listeners → fuel ≠ 0 →
     ∀ r l,
       store s !! r = Some l →
       AssociativeArray.contains (_labels s) (DOMLabel.id l) = false →
       values (add listeners fuel (ArgLabel r) s).1 = values s ++ [r]).
Proof.
  intros Hwf. split.
  - intros id r Hg.
    destruct (removeById_stored_facts listeners fuel s id r Hwf Hg)
      as (s' & -> & Hl & _).
    unfold values, AssociativeArray.values. cbn [fst]. rewrite Hl.
    apply delete_values_filter. apply sound_key_ref; [apply Hwf | done].
  - intros Hf Hq Hfuel r l Hl Hc.
    destruct (wf_outside s Hwf Hf) as [Ha Hr].
    pose proof (proj1 (AA_contains_false _ _) Hc) as Hid.
    rewrite (add_outside_state listeners fuel s r l) by done.
    destruct (add_commit_fresh r l s Hid Ha Hr) as (Hl1 & _).
    unfold values, AssociativeArray.values.
    cbn [fst log with_trace with_removedLabels with_addedLabels with_refire with_firing
         _labels].
    by rewrite Hl1, fmap_app.
Qed.

Lemma raises_app ns1 ns2 : raises (ns1 ++ ns2) = raises ns1 ++ raises ns2.
Proof. unfold raises. apply omap_app. Qed.

Lemma raises_deferred k : raises (replicate k Deferred) = [].
Proof. induction k as [| k IH]; [done | exact IH]. Qed.

(** X4. [removeById] of a label of a well-formed collection never reports
    the removal: it raises nothing itself, whatever the listeners and the
    fuel, and it files nothing in the removed set, so that no later raise
    carries the label in its removed array.  Outside a raise the log and
    the two pending sets are what they were. *)
Theorem X4_removeById_silent listeners fuel (s : t) id r :
  wf s →
  AssociativeArray.get (_labels s) id = Some r →
  ∃ s',
    removeById listeners fuel (Some id) s = (s', Returned true)
    ∧ raises (trace s') = raises (trace s)
    ∧ (∀ p, p ∈ _removedLabels s' → p ∈ _removedLabels s)
    ∧ (_firing s = false →
       trace s' = trace s ∧ _addedLabels s' = [] ∧ _removedLabels s' = []).
Proof.
  intros Hwf Hg.
  destruct (removeById_stored_facts listeners fuel s id r Hwf Hg)
    as (s' & Hrun & _ & _ & _ & Ha & Hr & Ht & _).
  exists s'. split; [done |]. split; [| split].
  - rewrite Ht, raises_app. destruct (_firing s); simpl; by rewrite app_nil_r.
  - intros p. rewrite Hr.
    destruct (AssociativeArray.contains (_addedLabels s) id); [done |].
    intros Hp. by apply AA_delete_elem in Hp as [? _].
  - intros Hf. destruct (wf_outside s Hwf Hf) as [Ha0 Hr0].
    rewrite Ht, Ha, Hr, Hf, Ha0, Hr0, app_nil_r. done.
Qed.

(** X5. [remove] goes by the id of its argument, not by its identity:
    handed a label object that is not in the collection but carries the
    id of one that is, it removes the stored label and returns true,
    although [contains] answers false for the argument. *)
Theorem X5_remove_goes_by_id listeners fuel (s : t) r r' l' :
  wf s →
  store s !! r' = Some l' →
  AssociativeArray.get (_labels s) (DOMLabel.id l') = Some r →
  r ≠ r' →
  contains (Some r') s = Returned false
  ∧ ∃ s',
      remove listeners fuel (Some r') s = (s', Returned true)
      ∧ AssociativeArray.get (_labels s') (DOMLabel.id l') = None
      ∧ (r ∉ values s')
      ∧ (r ∉ children (_container s'))
      ∧ DOMLabel._domlabelCollection <$> store s' !! r = Some false.
Proof.
  intros Hwf Hl' Hg Hne. split.
  { unfold contains. rewrite Hl', Hg. rewrite bool_decide_eq_false_2; [done |].
    congruence. }
  destruct (removeById_stored_facts listeners fuel s _ r Hwf Hg)
    as (s' & Hrun & Hl & Hc & Hst & _).
  exists s'. unfold remove, remove_with. rewrite Hl'.
  split; [exact Hrun |]. rewrite Hl, Hc, Hst.
  split; [apply AA_get_delete |]. split; [| split].
  - unfold values, AssociativeArray.values. rewrite Hl.
    rewrite (delete_values_filter _ _ r)
      by (apply sound_key_ref; [apply Hwf | done]).
    rewrite list_elem_of_filter. naive_solver.
  - rewrite list_elem_of_filter. naive_solver.
  - rewrite list_lookup_alter_eq.
    destruct (sound_child s _ r (proj1 Hwf) Hg) as [_ Hid].
    by destruct (store s !! r).
Qed.

(** X6. Well-formedness is an invariant of the collection: the constructor
    establishes it, and every sequence of calls (whatever the listeners
    do, whatever the calls end in), every frame and every assignment to
    show preserves it.  In a well-formed collection every entry is filed
    under the id of its label, no id is filed twice, the element of every
    label of the collection is a child of the container, and outside a
    raise nothing is pending. *)
Theorem X6_well_formed_invariant :
  (∀ labels c sc sh (s : t), new labels (Some c) (Some sc) sh = Returned s → wf s)
  ∧ (∀ listeners fuel cs (s : t), wf s → wf (calls listeners fuel cs s).1)
  ∧ (∀ s : t, wf s → wf (renderFrame s))
  ∧ (∀ value (s : t), wf s → wf (set_show value s).1).
Proof.
  split_and!.
  - intros labels c sc sh s Hnew. by apply new_wf in Hnew as [? _].
  - apply calls_wf.
  - apply renderFrame_wf.
  - apply set_show_wf.
Qed.

(** X7. When a call made outside a raise on a well-formed collection
    returns, no raise is in progress and both pending sets are empty:
    whatever the call and the listeners changed has been handed to a
    raise. *)
Theorem X7_return_leaves_nothing_pending listeners fuel c (s s' : t) v :
  wf s → _firing s = false →
  call listeners fuel c s = (s', Returned v) →
  _firing s' = false ∧ _addedLabels s' = [] ∧ _removedLabels s' = [].
Proof.
  intros Hwf Hf Hcall.
  destruct (call_in_phase listeners fuel c s s' _ Quiet (or_introl (conj eq_refl Hf)) Hcall)
    as (Hwf' & suffix & p' & _ & _ & Hin & _ & Hq).
  specialize (Hq eq_refl ltac:(eauto)). subst p'.
  destruct (Hin ltac:(done)) as [[_ Hf'] | (d & [=] & _)].
  split; [done |]. by apply wf_outside; [apply Hwf' |].
Qed.

(** X8. There is no recovery from an error thrown under a raise.  When a
    call made outside a raise throws, either it threw before it asked for
    a notification, and then the log is unchanged and no raise is in
    progress, or the error came out of a raise, and then [_firing] is
    left set and the log ends inside that raise. *)
Theorem X8_error_leaves_firing listeners fuel c (s s' : t) e :
  _firing s = false →
  call listeners fuel c s = (s', Threw e) →
  (trace s' = trace s ∧ _firing s' = false)
  ∨ (_firing s' = true
     ∧ ∃ suffix d,
         trace s' = trace s ++ suffix
         ∧ phase_run Quiet suffix = Some (Raising d)).
Proof.
  intros Hf Hcall. unfold call in Hcall.
  destruct (call_shape _ c s s' _ Hcall)
    as [((Ht & Hf' & _) & _) | (s1 & (Ht & Hf' & _) & _ & Hfire)].
  - left. split; congruence.
  - right. apply fireChangedEvent_quiet in Hfire
      as (_ & suffix & p & Ht' & Hp & [d ->] & Hf''); [| congruence].
    split; [done |]. exists suffix, d. split; [congruence | done].
Qed.

(** X9. Once [_firing] is left set, collectionChanged is never raised
    again: every later call that asks for a notification is only recorded
    as deferred, [_firing] stays set, and no call runs out of fuel. *)
Theorem X9_firing_never_raises listeners fuel cs (s : t) :
  _firing s = true →
  _firing (calls listeners fuel cs s).1 = true
  ∧ (OutOfFuel ∉ (calls listeners fuel cs s).2)
  ∧ ∃ k, trace (calls listeners fuel cs s).1 = trace s ++ replicate k Deferred.
Proof.
  revert s. induction cs as [| c cs IH]; intros s Hf; cbn [calls].
  - split; [done |]. split; [apply not_elem_of_nil |].
    exists 0. by rewrite app_nil_r.
  - destruct (call listeners fuel c s) as [s1 o] eqn:Hcall.
    apply call_firing in Hcall
      as (Hf1 & Ho & _ & k & Ht & _); [| apply fireChangedEvent_defers | done].
    destruct (IH s1 Hf1) as (Hf2 & Hno & k' & Ht').
    destruct (calls listeners fuel cs s1) as [s2 os]. cbn [fst snd] in *.
    destruct o as [v | e |]; [| | done]; cbn [fst snd].
    + split; [done |]. split.
      * apply not_elem_of_cons. by split.
      * exists (k + k'). by rewrite Ht', Ht, <- app_assoc, replicate_add.
    + split; [done |]. split.
      * apply not_elem_of_cons. by split.
      * exists (k + k'). by rewrite Ht', Ht, <- app_assoc, replicate_add.
Qed.

Lemma fireChangedEvent_quiet_once listeners fuel (s : t) :
  quiet listeners → fuel ≠ 0 → _firing s = false →
  ∃ s',
    fireChangedEvent listeners fuel s = (s', Returned tt)
    ∧ (trace s' = trace s
       ∨ trace s' = trace s ++ [RaiseBegin (AssociativeArray.values (_addedLabels s))
                                  (AssociativeArray.values (_removedLabels s));
                                RaiseEnd]).
Proof.
  intros Hq Hfuel Hf. destruct fuel as [| fuel]; [done |].
  cbn [fireChangedEvent]. unfold fireChangedEvent_with. rewrite Hf.
  destruct (negb (Nat.eqb (AssociativeArray.length (_addedLabels s)) 0)
            || negb (Nat.eqb (AssociativeArray.length (_removedLabels s)) 0)).
  - unfold bind.
    erewrite (do_while_turn listeners _ fuel (with_firing true s)).
    2: { by apply raiseEvent_quiet. }
    cbn [log with_trace with_removedLabels with_addedLabels with_refire _refire ret].
    eexists. split; [reflexivity |]. right.
    cbn [log with_trace with_removedLabels with_addedLabels with_refire with_firing
         trace _addedLabels _removedLabels].
    by rewrite <- app_assoc.
  - eexists. split; [reflexivity |]. by left.
Qed.

(** X10. With listeners that leave the collection alone, every call made
    outside a raise comes back with one unit of fuel: it returns or
    throws, and it raises collectionChanged at most once. *)
Theorem X10_quiet_call_terminates listeners fuel c (s : t) :
  quiet listeners → fuel ≠ 0 → _firing s = false →
  ∃ s' o,
    call listeners fuel c s = (s', o)
    ∧ o ≠ OutOfFuel
    ∧ (trace s' = trace s ∨ ∃ a r, trace s' = trace s ++ [RaiseBegin a r; RaiseEnd]).
Proof.
  intros Hq Hfuel Hf.
  destruct (call listeners fuel c s) as [s' o] eqn:Hcall.
  exists s', o. split; [done |]. unfold call in Hcall.
  destruct (call_shape _ c s s' _ Hcall)
    as [((Ht & _) & Ho & _) | (s1 & (Ht & Hf' & _) & _ & Hfire)].
  - split; [done |]. by left.
  - destruct (fireChangedEvent_quiet_once listeners fuel s1 Hq Hfuel)
      as (s2 & Hrun & Htr); [congruence |].
    rewrite Hrun in Hfire. injection Hfire as <- Ho.
    split; [by destruct o |].
    destruct Htr as [Htr | Htr]; [left | right]; rewrite Htr, Ht; eauto.
Qed.

(** *** Further properties of the frame synchronisation *)

Lemma renderFrame_loop_scene cam rs :
  ∀ s : t, _scene (foldl (renderFrame_step cam) s rs) = _scene s.
Proof.
  induction rs as [| r rs IH]; intros s; simpl; [done |].
  by rewrite IH, renderFrame_step_scene.
Qed.

Lemma renderFrame_loop_other cam r rs :
  r ∉ rs → ∀ s : t, store (foldl (renderFrame_step cam) s rs) !! r = store s !! r.
Proof.
  induction rs as [| r' rs IH]; intros Hnot s; simpl; [done |].
  apply not_elem_of_cons in Hnot as [Hne Hnot].
  by rewrite IH, renderFrame_step_other.
Qed.

Lemma renderFrame_unfold (s : t) r :
  _show s = true → r ∈ AssociativeArray.values (_labels s) →
  renderFrame s
  = foldl (renderFrame_step (camera_position (_scene s))) s
      (AssociativeArray.values (_labels s)).
Proof.
  intros Hshow Hin. unfold renderFrame. rewrite Hshow.
  destruct (_labels s); [by apply elem_of_nil in Hin | done].
Qed.

(** X11. In a frame of a shown, well-formed collection, a label of the
    collection whose show flag is set, whose position is not behind the
    camera and whose projection is the point (x, y) ends the frame
    displayed, with top [_vOffset + y - offsetHeight / 2] and left
    [_hOffset + x - offsetWidth / 2] in pixels.  The height is the one the
    element has once its display is 'block' (top and left still as before
    the frame), the width the one it has once its display is 'block' and
    its top is the new one (left still as before the frame). *)
Theorem X11_in_front_positioned (s : t) r l x y :
  wf s → _show s = true →
  r ∈ AssociativeArray.values (_labels s) →
  store s !! r = Some l →
  DOMLabel._show l = true →
  dot_negative (camera_position (_scene s)) (DOMLabel._position l) = false →
  cartesianToCanvasCoordinates (_scene s) (DOMLabel._position l) = Some (x, y) →
  let e := DOMLabel._label l in
  let after_display := mkElement (textContent e) "block" (style_top e) (style_left e) in
  let top :=
    num_to_string
      (num_sub (num_add (DOMLabel._vOffset l) y)
         (num_half (offsetHeight after_display))) +:+ "px" in
  let after_top := mkElement (textContent e) "block" top (style_left e) in
  let left :=
    num_to_string
      (num_sub (num_add (DOMLabel._hOffset l) x)
         (num_half (offsetWidth after_top))) +:+ "px" in
  store (renderFrame s) !! r
  = Some (DOMLabel.set_label (mkElement (textContent e) "block" top left) l).
Proof.
  intros Hwf Hshow Hin Hl Hlshow Hdot Hproj. cbv zeta.
  rewrite (renderFrame_unfold s r Hshow Hin).
  pose proof (sound_values_NoDup s (proj1 Hwf)) as Hnd.
  generalize (camera_position (_scene s)) Hdot. intros cam Hdot'.
  revert Hproj Hl. generalize s at 1 2 3 as s0.
  revert Hin Hnd. generalize (AssociativeArray.values (_labels s)) as rs.
  induction rs as [| r' rs IH]; intros Hin Hnd s0 Hproj Hl.
  - by apply elem_of_nil in Hin.
  - apply NoDup_cons in Hnd as [Hr' Hnd]. simpl.
    destruct (decide (r = r')) as [<- | Hne].
    + rewrite renderFrame_loop_other by done.
      unfold renderFrame_step. rewrite Hl, Hlshow, Hdot', Hproj. cbn [store with_store].
      rewrite list_lookup_insert_eq by (by eapply lookup_lt_Some). done.
    + apply elem_of_cons in Hin as [? | Hin]; [done |].
      apply IH; [done | done | |].
      * by rewrite renderFrame_step_scene.
      * by rewrite renderFrame_step_other.
Qed.

(** X12. A frame never touches a label whose own show flag is false: its
    element keeps the display, top and left it had; in particular the
    frame does not hide it. *)
Theorem X12_hidden_label_untouched (s : t) r l :
  store s !! r = Some l →
  DOMLabel._show l = false →
  store (renderFrame s) !! r = Some l.
Proof.
  intros Hl Hlshow.
  assert (∀ cam rs (s0 : t),
            store s0 !! r = Some l →
            store (foldl (renderFrame_step cam) s0 rs) !! r = Some l) as Hloop.
  { intros cam rs. induction rs as [| r' rs IH]; intros s0 Hl0; simpl; [done |].
    apply IH. destruct (decide (r = r')) as [<- | Hne].
    - unfold renderFrame_step. by rewrite Hl0, Hlshow.
    - by rewrite renderFrame_step_other. }
  unfold renderFrame. case_match; [by apply Hloop | done].
Qed.

Lemma renderFrame_step_frame cam (s : t) r :
  let s' := renderFrame_step cam s r in
  _container s' = _container s ∧ _labels s' = _labels s
  ∧ _addedLabels s' = _addedLabels s ∧ _removedLabels s' = _removedLabels s
  ∧ _show s' = _show s ∧ _firing s' = _firing s ∧ _refire s' = _refire s
  ∧ preRender s' = preRender s ∧ trace s' = trace s
  ∧ length (store s') = length (store s)
  ∧ ∀ r0 l0,
      store s !! r0 = Some l0 →
      ∃ e, store s' !! r0 = Some (DOMLabel.set_label e l0)
           ∧ textContent e = textContent (DOMLabel._label l0).
Proof.
  assert (∀ r0 l0, store s !! r0 = Some l0 →
            ∃ e, store s !! r0 = Some (DOMLabel.set_label e l0)
                 ∧ textContent e = textContent (DOMLabel._label l0)) as Hsame.
  { intros r0 l0 Hl0. exists (DOMLabel._label l0). split; [| done].
    rewrite Hl0. by destruct l0. }
  assert (∀ l e, store s !! r = Some l →
            textContent e = textContent (DOMLabel._label l) →
            ∀ r0 l0, store s !! r0 = Some l0 →
              ∃ e0, <[r := DOMLabel.set_label e l]> (store s) !! r0
                    = Some (DOMLabel.set_label e0 l0)
                    ∧ textContent e0 = textContent (DOMLabel._label l0)) as Hset.
  { intros l e Hl He r0 l0 Hl0. destruct (decide (r = r0)) as [<- | Hne].
    - exists e. rewrite list_lookup_insert_eq by (by eapply lookup_lt_Some).
      split; congruence.
    - rewrite list_lookup_insert_ne by done. by apply Hsame. }
  unfold renderFrame_step. cbn zeta.
  destruct (store s !! r) as [l |] eqn:Hl; [| by split_and!].
  destruct (DOMLabel._show l); [| by split_and!].
  destruct (dot_negative cam (DOMLabel._position l)).
  { cbn. rewrite length_insert. split_and!; try done. by apply Hset. }
  destruct (cartesianToCanvasCoordinates (_scene s) (DOMLabel._position l))
    as [[x y] |]; [| by split_and!].
  cbn. rewrite length_insert. split_and!; try done. by apply Hset.
Qed.

Lemma renderFrame_loop_frame cam rs :
  ∀ s : t,
    let s' := foldl (renderFrame_step cam) s rs in
    _container s' = _container s ∧ _labels s' = _labels s
    ∧ _addedLabels s' = _addedLabels s ∧ _removedLabels s' = _removedLabels s
    ∧ _show s' = _show s ∧ _firing s' = _firing s ∧ _refire s' = _refire s
    ∧ preRender s' = preRender s ∧ trace s' = trace s
    ∧ length (store s') = length (store s)
    ∧ ∀ r l,
        store s !! r = Some l →
        ∃ e, store s' !! r = Some (DOMLabel.set_label e l)
             ∧ textContent e = textContent (DOMLabel._label l).
Proof.
  induction rs as [| r' rs IH]; intros s; cbn zeta; simpl.
  { split_and!; try done. intros r l Hl. exists (DOMLabel._label l).
    split; [| done]. rewrite Hl. by destruct l. }
  destruct (renderFrame_step_frame cam s r')
    as (Hc & Hl & Ha & Hr & Hs & Hf & Hre & Hp & Ht & Hlen & Hst).
  destruct (IH (renderFrame_step cam s r'))
    as (Hc' & Hl' & Ha' & Hr' & Hs' & Hf' & Hre' & Hp' & Ht' & Hlen' & Hst').
  split_and!; try congruence.
  intros r l Hlk. destruct (Hst r l Hlk) as (e1 & Hl1 & He1).
  destruct (Hst' r _ Hl1) as (e2 & Hl2 & He2).
  exists e2. rewrite Hl2. split; [by destruct l |].
  rewrite He2. by destruct l.
Qed.

(** X13. A frame writes nothing but element styles: the label map, the
    pending sets, the container, the flags and both logs are what they
    were, no label object appears or disappears, and every label keeps
    its id, position, text, show flag, offsets and back-reference, and
    its element keeps its text. *)
Theorem X13_frame_writes_styles_only (s : t) :
  _container (renderFrame s) = _container s
  ∧ _labels (renderFrame s) = _labels s
  ∧ _addedLabels (renderFrame s) = _addedLabels s
  ∧ _removedLabels (renderFrame s) = _removedLabels s
  ∧ _show (renderFrame s) = _show s
  ∧ _firing (renderFrame s) = _firing s
  ∧ _refire (renderFrame s) = _refire s
  ∧ preRender (renderFrame s) = preRender s
  ∧ trace (renderFrame s) = trace s
  ∧ length (store (renderFrame s)) = length (store s)
  ∧ ∀ r l,
      store s !! r = Some l →
      ∃ e, store (renderFrame s) !! r = Some (DOMLabel.set_label e l)
           ∧ textContent e = textContent (DOMLabel._label l).
Proof.
  unfold renderFrame. case_match; [apply renderFrame_loop_frame |].
  apply (renderFrame_loop_frame (camera_position (_scene s)) [] s).
Qed.

(** *** Further properties of show and of the constructor *)

(** X14. Assigning show the same value twice is assigning it once.  And
    hiding a shown collection and showing it again ends with the flag
    set, display 'block' on the container, and two more calls on the
    pre-render event, the removal without scope and a second
    registration; the labels, the children of the container, the pending
    sets and the notification log are untouched. *)
Theorem X14_show_twice_and_back (s : t) :
  (∀ value,
     set_show (Some value) (set_show (Some value) s).1
     = ((set_show (Some value) s).1, Returned tt))
  ∧ (_show s = true →
     ∃ s1 s2,
       set_show (Some false) s = (s1, Returned tt)
       ∧ set_show (Some true) s1 = (s2, Returned tt)
       ∧ _show s2 = true
       ∧ _container s2 = mkContainer "block" (children (_container s))
       ∧ preRender s2
         = preRender s ++ [removeEventListener ScopeUndefined; addEventListener ScopeThis]
       ∧ store s2 = store s ∧ _labels s2 = _labels s
       ∧ _addedLabels s2 = _addedLabels s ∧ _removedLabels s2 = _removedLabels s
       ∧ trace s2 = trace s).
Proof.
  split.
  - intros value. unfold set_show at 2 3. case_bool_decide as Hv.
    + cbn [fst]. unfold set_show, ret. by rewrite bool_decide_eq_true_2.
    + destruct value; cbn [fst ret]; unfold set_show;
        cbn [with_preRender with_container with_show _show];
        by rewrite bool_decide_eq_true_2.
  - intros Hshow. unfold set_show. rewrite Hshow.
    rewrite bool_decide_eq_false_2 by done. cbn [ret].
    eexists. eexists. split; [reflexivity |].
    cbn [with_preRender with_container with_show _show].
    rewrite bool_decide_eq_false_2 by done.
    split; [reflexivity |]. cbn. rewrite <- app_assoc. by split_and!.
Qed.

(** X15. A newly constructed collection is empty and idle: the show flag
    is the argument, or true when none is given; the container is
    untouched and renderFrame is registered once, also when the
    collection is constructed hidden; getById returns undefined for every
    id and contains answers false for every label; a frame changes
    nothing, and removeAll raises nothing and changes nothing. *)
Theorem X15_constructed_empty labels c sc sh :
  ∃ s : t,
    new labels (Some c) (Some sc) sh = Returned s
    ∧ show s = default true sh
    ∧ container s = c
    ∧ preRender s = [addEventListener ScopeThis]
    ∧ values s = []
    ∧ (∀ id, getById (Some id) s = Returned None)
    ∧ (∀ r l, labels !! r = Some l → contains (Some r) s = Returned false)
    ∧ renderFrame s = s
    ∧ (∀ listeners fuel, removeAll listeners fuel s = (s, Returned tt)).
Proof.
  eexists. split; [reflexivity |]. split_and!; try done.
  - intros r l Hl. unfold contains. cbn [store]. by rewrite Hl.
  - unfold renderFrame. cbn. by rewrite andb_false_r.
  - intros listeners fuel. by destruct fuel.
Qed.

(** *** Pending sets during a raise *)

Lemma AA_get_app (a b : list (string * nat)) k :
  AssociativeArray.get (a ++ b) k
  = match AssociativeArray.get a k with
    | Some v => Some v
    | None => AssociativeArray.get b k
    end.
Proof.
  induction a as [| [k' v'] a IH]; simpl; [done |].
  by case_bool_decide.
Qed.

Lemma AA_get_delete_ne (a : list (string * nat)) k k' :
  k ≠ k' → AssociativeArray.get (AssociativeArray.delete a k') k = AssociativeArray.get a k.
Proof.
  intros Hne. induction a as [| [k0 v0] a IH]; simpl; [done |].
  repeat (case_bool_decide; simpl); subst; try done.
Qed.

Lemma AA_get_set_eq (a : list (string * nat)) k v :
  AssociativeArray.get (AssociativeArray.set a k v) k = Some v.
Proof.
  unfold AssociativeArray.set. case_bool_decide; [done |].
  rewrite AA_get_app, AA_get_delete. simpl. by rewrite bool_decide_eq_true_2.
Qed.

Lemma AA_get_set_ne (a : list (string * nat)) k k' v :
  k ≠ k' →
  AssociativeArray.get (AssociativeArray.set a k' v) k = AssociativeArray.get a k.
Proof.
  intros Hne. unfold AssociativeArray.set. case_bool_decide; [done |].
  rewrite AA_get_app, AA_get_delete_ne by done. simpl.
  rewrite bool_decide_eq_false_2 by done. by destruct (AssociativeArray.get a k).
Qed.

(** X16. [add] during a raise is deferred: it raises nothing, records the
    request and files the label under its id.  When the id is pending in
    the removed set, the add withdraws it from there and files nothing in
    the added set, so that the replay reports neither; otherwise the label
    is filed in the added set. *)
Theorem X16_add_during_raise listeners fuel (s : t) r l :
  _firing s = true →
  store s !! r = Some l →
  AssociativeArray.contains (_labels s) (DOMLabel.id l) = false →
  ∃ s',
    add listeners fuel (ArgLabel r) s = (s', Returned r)
    ∧ trace s' = trace s ++ [Deferred]
    ∧ _firing s' = true ∧ _refire s' = true
    ∧ AssociativeArray.get (_labels s') (DOMLabel.id l) = Some r
    ∧ AssociativeArray.get (_removedLabels s') (DOMLabel.id l) = None
    ∧ (AssociativeArray.contains (_removedLabels s) (DOMLabel.id l) = true →
       _addedLabels s' = _addedLabels s)
    ∧ (AssociativeArray.contains (_removedLabels s) (DOMLabel.id l) = false →
       AssociativeArray.get (_addedLabels s') (DOMLabel.id l) = Some r).
Proof.
  intros Hf Hl Hc. unfold add, add_with. rewrite Hl, Hc.
  destruct (add_commit_ctl r l s) as (Ht & Hf' & _).
  unfold bind. rewrite fireChangedEvent_defers by congruence.
  eexists. split; [reflexivity |].
  cbn [log with_trace with_refire trace _firing _refire _labels _addedLabels
       _removedLabels].
  rewrite Ht, Hf', Hf, add_commit_labels, add_commit_removed, add_commit_added.
  split_and!; try done.
  - apply AA_get_set_eq.
  - apply AA_get_delete.
  - by intros ->.
  - intros ->. apply AA_get_set_eq.
Qed.

Lemma removeAll_step_cases r (s s1 : t) :
  removeAll_step r s = (s1, Returned tt) →
  ∃ l,
    store s !! r = Some l
    ∧ ((is_Some (AssociativeArray.get (_addedLabels s) (DOMLabel.id l)) ∧ s1 = s)
       ∨ (AssociativeArray.get (_addedLabels s) (DOMLabel.id l) = None
          ∧ store s1 = <[r := DOMLabel.set_domlabelCollection false l]> (store s)
          ∧ children (_container s1) = filter (λ x, x ≠ r) (children (_container s))
          ∧ _removedLabels s1
            = AssociativeArray.set (_removedLabels s) (DOMLabel.id l) r
          ∧ _addedLabels s1 = _addedLabels s)).
Proof.
  unfold removeAll_step. destruct (store s !! r) as [l |]; [| done].
  intros Hrun. exists l. split; [done |].
  destruct (AssociativeArray.get (_addedLabels s) (DOMLabel.id l)) as [x |].
  - injection Hrun as <-. left. eauto.
  - cbn [with_store _container] in Hrun. unfold removeChild in Hrun.
    case_bool_decide; [| done]. injection Hrun as <-. right. by split_and!.
Qed.

Lemma removeAll_loop_others ps :
  ∀ s s' : t,
    Forall (λ p, DOMLabel.id <$> store s !! p.2 = Some p.1) ps →
    removeAll_loop ps.*2 s = (s', Returned tt) →
    _addedLabels s' = _addedLabels s
    ∧ (∀ r, r ∉ ps.*2 →
         store s' !! r = store s !! r
         ∧ (r ∈ children (_container s') ↔ r ∈ children (_container s)))
    ∧ (∀ k, k ∉ ps.*1 →
         AssociativeArray.get (_removedLabels s') k
         = AssociativeArray.get (_removedLabels s) k).
Proof.
  induction ps as [| [k0 r0] ps IH]; intros s s' Hk; simpl.
  - intros [= <-]. by split_and!.
  - unfold bind. destruct (removeAll_step r0 s) as [s1 [[] | e |]] eqn:Hstep; [| done | done].
    intros Hloop. apply Forall_cons in Hk as [Hk0 Hk]. simpl in Hk0.
    pose proof (removeAll_step_frame _ _ _ _ Hstep) as (_ & _ & _ & _ & Hids & _).
    destruct (removeAll_step_cases r0 s s1 Hstep) as (l & Hl & Hcase).
    rewrite Hl in Hk0. injection Hk0 as Hk0.
    destruct (IH s1 s') as (Ha & Hst & Hrm); [| done |].
    { eapply Forall_impl; [exact Hk |]. intros [k x]. simpl. apply Hids. }
    destruct Hcase as [[_ ->] | (_ & Hst1 & Hch1 & Hrm1 & Ha1)].
    + split; [done |]. split.
      * intros r Hr. apply not_elem_of_cons in Hr as [_ Hr]. by apply Hst.
      * intros k Hk'. apply not_elem_of_cons in Hk' as [_ Hk']. by apply Hrm.
    + split; [congruence |]. split.
      * intros r Hr. apply not_elem_of_cons in Hr as [Hne Hr].
        destruct (Hst r Hr) as [-> ->]. rewrite Hst1, Hch1.
        rewrite list_lookup_insert_ne by done. split; [done |].
        rewrite list_elem_of_filter. naive_solver.
      * intros k Hk'. apply not_elem_of_cons in Hk' as [Hne Hk'].
        rewrite (Hrm k Hk'), Hrm1, Hk0. by apply AA_get_set_ne.
Qed.

Lemma removeAll_loop_each ps :
  ∀ s s' : t,
    Forall (λ p, DOMLabel.id <$> store s !! p.2 = Some p.1) ps →
    NoDup ps.*1 → NoDup ps.*2 →
    removeAll_loop ps.*2 s = (s', Returned tt) →
    Forall
      (λ p,
         match AssociativeArray.get (_addedLabels s) p.1 with
         | None =>
             (p.2 ∉ children (_container s'))
             ∧ AssociativeArray.get (_removedLabels s') p.1 = Some p.2
             ∧ DOMLabel._domlabelCollection <$> store s' !! p.2 = Some false
         | Some _ =>
             (p.2 ∈ children (_container s') ↔ p.2 ∈ children (_container s))
             ∧ store s' !! p.2 = store s !! p.2
         end) ps.
Proof.
  induction ps as [| [k0 r0] ps IH]; intros s s' Hk Hnk Hnr; simpl; [constructor |].
  unfold bind. destruct (removeAll_step r0 s) as [s1 [[] | e |]] eqn:Hstep; [| done | done].
  intros Hloop. apply Forall_cons in Hk as [Hk0 Hk]. simpl in Hk0.
  apply NoDup_cons in Hnk as [Hk0' Hnk]. apply NoDup_cons in Hnr as [Hr0' Hnr].
  pose proof (removeAll_step_frame _ _ _ _ Hstep) as (_ & _ & _ & Ha1 & Hids & _).
  assert (Forall (λ p, DOMLabel.id <$> store s1 !! p.2 = Some p.1) ps) as Hk1.
  { eapply Forall_impl; [exact Hk |]. intros [k x]. simpl. apply Hids. }
  destruct (removeAll_loop_others ps s1 s' Hk1 Hloop) as (_ & Hst & Hrm).
  destruct (Hst r0 Hr0') as [Hst0 Hch0]. specialize (Hrm k0 Hk0').
  destruct (removeAll_step_cases r0 s s1 Hstep) as (l & Hl & Hcase).
  rewrite Hl in Hk0. injection Hk0 as Hk0. subst k0.
  apply Forall_cons. split.
  - simpl. destruct Hcase as [[[x Hx] ->] | (Hnone & Hst1 & Hch1 & Hrm1 & _)].
    + rewrite Hx. done.
    + rewrite Hnone. rewrite Hch0, Hch1, Hrm, Hrm1, Hst0, Hst1.
      split; [rewrite list_elem_of_filter; naive_solver |].
      split; [apply AA_get_set_eq |].
      rewrite list_lookup_insert_eq by (by eapply lookup_lt_Some). done.
  - pose proof (IH s1 s' Hk1 Hnk Hnr Hloop) as Hall.
    rewrite Forall_forall in Hall. apply Forall_forall. intros p Hp.
    specialize (Hall p Hp). rewrite Ha1 in Hall.
    destruct (AssociativeArray.get (_addedLabels s) p.1); [| done].
    destruct Hall as [Hch Hlk].
    assert (p.2 ≠ r0) as Hne.
    { intros Heq. apply Hr0'. rewrite <- Heq.
      exact (list_elem_of_fmap_2 snd ps p Hp). }
    destruct Hcase as [[_ ->] | (_ & Hst1 & Hch1 & _)]; [done |].
    rewrite Hch, Hlk, Hst1, Hch1, list_lookup_insert_ne by done.
    split; [| done]. rewrite list_elem_of_filter. naive_solver.
Qed.

(** X17. [removeAll] during a raise, on a well-formed collection: it
    returns, empties the label map and the added set, and its request is
    deferred.  A label that was not pending in the added set is detached,
    loses its back-reference and is filed in the removed set; a label
    that was pending in the added set is dropped from the collection
    without any of this: its element stays where it was and the label
    object is untouched. *)
Theorem X17_removeAll_during_raise listeners fuel (s : t) :
  wf s → _firing s = true →
  ∃ s',
    removeAll listeners fuel s = (s', Returned tt)
    ∧ _labels s' = [] ∧ _addedLabels s' = []
    ∧ trace s' = trace s ++ [Deferred]
    ∧ Forall
        (λ p,
           match AssociativeArray.get (_addedLabels s) p.1 with
           | None =>
               (p.2 ∉ children (_container s'))
               ∧ AssociativeArray.get (_removedLabels s') p.1 = Some p.2
               ∧ DOMLabel._domlabelCollection <$> store s' !! p.2 = Some false
           | Some _ =>
               (p.2 ∈ children (_container s') ↔ p.2 ∈ children (_container s))
               ∧ store s' !! p.2 = store s !! p.2
           end) (_labels s).
Proof.
  intros [Hsd Hset] Hf.
  destruct (sound_loop_ok s Hsd) as [s1 Hloop].
  pose proof (removeAll_loop_frame _ _ _ _ Hloop) as ((Ht & Hf1 & _) & _).
  pose proof (removeAll_loop_each (_labels s) s s1 (proj1 Hsd)
                (proj1 (proj2 Hsd)) (sound_values_NoDup s Hsd) Hloop) as Heach.
  unfold removeAll, removeAll_with, bind. rewrite Hloop.
  rewrite fireChangedEvent_defers by (cbn; congruence).
  eexists. split; [reflexivity |]. cbn. rewrite Ht. by split_and!.
Qed.

End Properties.

(** ** The statements at concrete collections *)

Section Witnesses.
#[local] Existing Instance zhost.

Lemma wf_fresh : wf fresh.
Proof. apply (bool_decide_unpack _). vm_compute. exact I. Qed.

Lemma wf_three : wf three.
Proof. apply (bool_decide_unpack _). vm_compute. exact I. Qed.

Lemma wf_raising : wf raising.
Proof. apply (bool_decide_unpack _). vm_compute. exact I. Qed.

(** C10 at the fresh collection, which holds no label. *)
Lemma C10_witness :
  (_show fresh = false ∨ _labels fresh = []) ∧ renderFrame fresh = fresh.
Proof.
  split; [right; reflexivity |].
  apply C10_renderFrame_idle. right. reflexivity.
Defined.

(** C4 at label 1 of the collection of three, which is behind the camera. *)
Lemma C4_witness :
  _show three = true
  ∧ 1 ∈ AssociativeArray.values (_labels three)
  ∧ (style_display ∘ DOMLabel._label <$> store (renderFrame three) !! 1 = Some "none")
  ∧ (style_top ∘ DOMLabel._label <$> store (renderFrame three) !! 1 = Some "7px").
Proof.
  assert (1 ∈ AssociativeArray.values (_labels three)) as Hin
    by (apply (bool_decide_unpack _); vm_compute; exact I).
  pose proof (C4_behind_camera_hidden three 1
                (DOMLabel.set_domlabelCollection true (zlabel "b" (0, 0, -5)%Z "block"))
                eq_refl Hin eq_refl eq_refl eq_refl) as Hc.
  split; [reflexivity |]. split; [exact Hin |].
  rewrite Hc. split; reflexivity.
Defined.

(** C3 at label 2 of the collection of three, whose projection is
    undefined. *)
Lemma C3_witness :
  _show three = true
  ∧ 2 ∈ AssociativeArray.values (_labels three)
  ∧ store (renderFrame three) !! 2 = store three !! 2.
Proof.
  assert (2 ∈ AssociativeArray.values (_labels three)) as Hin
    by (apply (bool_decide_unpack _); vm_compute; exact I).
  pose proof (C3_offscreen_left_unchanged three 2
                (DOMLabel.set_domlabelCollection true (zlabel "c" (2000, 0, 5)%Z "block"))
                eq_refl Hin eq_refl eq_refl eq_refl eq_refl) as Hc.
  split; [reflexivity |]. split; [exact Hin |].
  rewrite Hc. reflexivity.
Defined.

(** The claim of C3 as the spec has it fails at that label: it is
    displayed before the frame and still displayed after it. *)
Lemma C3_counterexample :
  ¬ (∀ (s : t) r l,
       _show s = true →
       r ∈ AssociativeArray.values (_labels s) →
       store s !! r = Some l →
       DOMLabel._show l = true →
       dot_negative (camera_position (_scene s)) (DOMLabel._position l) = false →
       cartesianToCanvasCoordinates (_scene s) (DOMLabel._position l) = None →
       style_display ∘ DOMLabel._label <$> store (renderFrame s) !! r = Some "none").
Proof.
  intros Hclaim.
  assert (2 ∈ AssociativeArray.values (_labels three)) as Hin
    by (apply (bool_decide_unpack _); vm_compute; exact I).
  specialize (Hclaim three 2 _ eq_refl Hin eq_refl eq_refl eq_refl eq_refl).
  vm_compute in Hclaim. discriminate Hclaim.
Qed.

(** C5 at the collection of three and label 3, a second object with the
    id of label 0. *)
Lemma C5_witness :
  arg_id three (ArgLabel 3) = Some "a"
  ∧ AssociativeArray.contains (_labels three) "a" = true
  ∧ add [] 1 (ArgLabel 3) three = (three, Threw (RuntimeError (duplicate_message "a"))).
Proof.
  split; [reflexivity |]. split; [reflexivity |].
  destruct (C5_add_duplicate_throws [] 1 three (ArgLabel 3) "a" eq_refl eq_refl)
    as (s' & Hadd & _ & _ & _ & _ & _ & _ & Hsame).
  rewrite Hadd. by rewrite (Hsame 3 eq_refl).
Defined.

(** C6 at the collection of three: label 1 is removed by its id. *)
Lemma C6_witness :
  wf three
  ∧ AssociativeArray.get (_labels three) "b" = Some 1
  ∧ ∃ s',
      removeById [] 0 (Some "b") three = (s', Returned true)
      ∧ AssociativeArray.get (_labels s') "b" = None
      ∧ 1 ∉ children (_container s').
Proof.
  split; [exact wf_three |]. split; [reflexivity |].
  destruct (C6_removeById_detaches [] 0 three wf_three) as (Hrem & _).
  destruct (Hrem "b" 1 eq_refl) as (s' & Hrun & Hg & _ & Hc & _).
  exists s'. by split_and!.
Defined.

(** C7 at the collection of three: the duplicate of label 0 is refused,
    and the undefined arguments of remove and removeById are not. *)
Lemma C7_witness :
  arg_id three (ArgLabel 3) = Some "a"
  ∧ AssociativeArray.contains (_labels three) "a" = true
  ∧ (add [] 1 (ArgLabel 3) three).2 = Threw (RuntimeError (duplicate_message "a"))
  ∧ remove [] 1 None three = (three, Returned false).
Proof.
  split; [reflexivity |]. split; [reflexivity |].
  destruct (C7_missing_arguments [] 1 three zstore zcontainer None None
              unit (λ _ _, Returned tt) None)
    as (_ & _ & _ & _ & _ & _ & _ & Hdup & Hrem & _).
  split; [apply (Hdup (ArgLabel 3) "a"); reflexivity | exact Hrem].
Defined.

(** The claim of C7 as the spec has it fails: remove and removeById with
    an undefined argument return false. *)
Lemma C7_counterexample :
  (remove [] 1 None three).2 = Returned false
  ∧ (removeById [] 1 None three).2 = Returned false
  ∧ ¬ (∃ e, (remove [] 1 None three).2 = Threw e)
  ∧ ¬ (∃ e, (removeById [] 1 None three).2 = Threw e).
Proof.
  split; [reflexivity |]. split; [reflexivity |].
  split; intros [e He]; discriminate He.
Qed.

(** C9 at the collection of three: label 0 is contained, label 3, another
    object with the same id, is not. *)
Lemma C9_witness :
  store three !! 3 = Some (zlabel "a" (1, 1, 1)%Z "block")
  ∧ AssociativeArray.get (_labels three) "a" = Some 0
  ∧ contains (Some 3) three = Returned false
  ∧ contains (Some 0) three = Returned true.
Proof.
  split; [reflexivity |]. split; [reflexivity |].
  destruct (C9_contains_identity three 3 _ eq_refl) as (_ & Hother & _).
  destruct (C9_contains_identity three 0 _ eq_refl) as (Hsame & _ & _).
  split; [apply (Hother 0); [reflexivity | discriminate] |].
  apply Hsame. reflexivity.
Defined.




(** C1 at the fresh collection: a sequence of calls with a listener that
    answers re-entrantly, an add and a removal outside a raise, and the
    same answered inside a raise. *)
Lemma C1_witness :
  _firing fresh = false ∧ quiet [] ∧ 1 ≠ 0 ∧ 2 ≤ 2
  ∧ (∃ suffix p,
       trace (calls [add_then_remove] 2
                [CallAdd (ArgLabel 0); CallRemoveAll; CallAdd (ArgLabel 2)] fresh).1
       = trace fresh ++ suffix
       ∧ phase_run Quiet suffix = Some p)
  ∧ (∃ s',
       calls [] 1 [CallAdd (ArgLabel 1); CallRemoveById (Some "b")] fresh
       = (s', [Returned (VLabel 1); Returned (VBool true)])
       ∧ raises (trace s') = [([1], [])])
  ∧ (∃ s',
       add [react 0 [CallAdd (ArgLabel 1); CallRemoveById (Some "b")]] 2 (ArgLabel 0) fresh
       = (s', Returned 0)
       ∧ raises (trace s') = [([0], []); ([], [])]).
Proof.
  assert (quiet (H := zhost) []) as Hq by constructor.
  assert (∀ k : string, k ∉ (_labels fresh).*1) as Hfree
    by (intros k; apply not_elem_of_nil).
  destruct C1_notifications_deferred_and_replayed as (Hlog & Hout & Hin).
  split; [reflexivity |]. split; [exact Hq |]. split; [discriminate |]. split; [lia |].
  split; [| split].
  - destruct (Hlog [add_then_remove] 2
                [CallAdd (ArgLabel 0); CallRemoveAll; CallAdd (ArgLabel 2)] fresh eq_refl)
      as (suffix & p & Ht & Hp & _).
    exists suffix, p. split; [exact Ht | exact Hp].
  - destruct (Hout [] 1 fresh 1 (zlabel "b" (0, 0, -5)%Z "block") Hq
                ltac:(discriminate) eq_refl eq_refl eq_refl eq_refl (Hfree _))
      as (s' & Hrun & Ht & _).
    exists s'. split; [exact Hrun |]. by rewrite Ht.
  - destruct (Hin 2 fresh 0 1 (zlabel "a" (0, 0, 5)%Z "block")
                (zlabel "b" (0, 0, -5)%Z "block")
                eq_refl eq_refl eq_refl eq_refl eq_refl (Hfree _) (Hfree _)
                ltac:(discriminate) ltac:(lia))
      as (s' & Hrun & Ht & _).
    exists s'. split; [exact Hrun |]. by rewrite Ht.
Defined.

(** *** The further properties at concrete collections *)

Lemma wf_with_hidden_label : wf with_hidden_label.
Proof. apply (bool_decide_unpack _). vm_compute. exact I. Qed.

Lemma wf_raising_added : wf raising_added.
Proof. apply (bool_decide_unpack _). vm_compute. exact I. Qed.

Lemma quiet_nil : quiet (H := zhost) [].
Proof. constructor. Qed.

(** X1 at the fresh collection and label 0. *)
Lemma X1_witness :
  wf fresh ∧ _firing fresh = false ∧ quiet [] ∧ 1 ≠ 0
  ∧ AssociativeArray.contains (_labels fresh) "a" = false
  ∧ ∃ s',
      add [] 1 (ArgLabel 0) fresh = (s', Returned 0)
      ∧ _labels s' = [("a", 0)]
      ∧ children (_container s') = [0]
      ∧ trace s' = [RaiseBegin [0] []; RaiseEnd].
Proof.
  split; [exact wf_fresh |]. split; [reflexivity |]. split; [exact quiet_nil |].
  split; [discriminate |]. split; [reflexivity |].
  destruct (X1_add_inserts [] 1 fresh 0 (zlabel "a" (0, 0, 5)%Z "block")
              wf_fresh eq_refl quiet_nil ltac:(discriminate) eq_refl eq_refl)
    as (s' & Hrun & Hl & Hc & _ & _ & Ht & _).
  exists s'. by split_and!.
Defined.

(** X2 at the fresh collection and label 0. *)
Lemma X2_witness :
  wf fresh ∧ _firing fresh = false ∧ quiet [] ∧ 1 ≠ 0
  ∧ ∃ s1 s2,
      add [] 1 (ArgLabel 0) fresh = (s1, Returned 0)
      ∧ getById (Some "a") s1 = Returned (Some 0)
      ∧ contains (Some 0) s1 = Returned true
      ∧ removeById [] 1 (Some "a") s1 = (s2, Returned true)
      ∧ getById (Some "a") s2 = Returned None
      ∧ contains (Some 0) s2 = Returned false
      ∧ _labels s2 = [].
Proof.
  split; [exact wf_fresh |]. split; [reflexivity |]. split; [exact quiet_nil |].
  split; [discriminate |].
  destruct (X2_add_lookup_remove [] 1 fresh 0 (zlabel "a" (0, 0, 5)%Z "block")
              wf_fresh eq_refl quiet_nil ltac:(discriminate) eq_refl eq_refl)
    as (s1 & s2 & H1 & H2 & H3 & H4 & H5 & H6 & H7).
  exists s1, s2. by split_and!.
Defined.

(** X3 at the collection of three, from which label 1 is removed, and at
    the fresh collection, to which label 0 is added. *)
Lemma X3_witness :
  wf three ∧ wf fresh
  ∧ values (removeById [] 1 (Some "b") three).1 = [0; 2]
  ∧ values (add [] 1 (ArgLabel 0) fresh).1 = [0].
Proof.
  split; [exact wf_three |]. split; [exact wf_fresh |].
  destruct (X3_values_order [] 1 three wf_three) as [Hrem _].
  destruct (X3_values_order [] 1 fresh wf_fresh) as [_ Hadd].
  split.
  - rewrite (Hrem "b" 1 eq_refl). reflexivity.
  - rewrite (Hadd eq_refl quiet_nil ltac:(discriminate) 0
               (zlabel "a" (0, 0, 5)%Z "block") eq_refl eq_refl).
    reflexivity.
Defined.

(** X4 at the collection of three and its label 1. *)
Lemma X4_witness :
  wf three ∧ AssociativeArray.get (_labels three) "b" = Some 1
  ∧ ∃ s',
      removeById [add_then_remove] 1 (Some "b") three = (s', Returned true)
      ∧ trace s' = trace three
      ∧ _removedLabels s' = [].
Proof.
  split; [exact wf_three |]. split; [reflexivity |].
  destruct (X4_removeById_silent [add_then_remove] 1 three "b" 1 wf_three eq_refl)
    as (s' & Hrun & _ & _ & Hout).
  destruct (Hout eq_refl) as (Ht & _ & Hr).
  exists s'. by split_and!.
Defined.

(** X5 at the collection of three: label 3 carries the id of label 0. *)
Lemma X5_witness :
  wf three ∧ 0 ≠ 3
  ∧ contains (Some 3) three = Returned false
  ∧ ∃ s',
      remove [] 1 (Some 3) three = (s', Returned true)
      ∧ AssociativeArray.get (_labels s') "a" = None
      ∧ 0 ∉ children (_container s').
Proof.
  split; [exact wf_three |]. split; [discriminate |].
  destruct (X5_remove_goes_by_id [] 1 three 0 3 (zlabel "a" (1, 1, 1)%Z "block")
              wf_three eq_refl eq_refl ltac:(discriminate))
    as (Hc & s' & Hrun & Hg & _ & Hch & _).
  split; [exact Hc |]. exists s'. by split_and!.
Defined.

(** X6 at the fresh collection, through calls with a listener that
    answers re-entrantly, a frame and an assignment to show. *)
Lemma X6_witness :
  wf fresh
  ∧ wf (calls [add_then_removeAll] 2 [CallAdd (ArgLabel 0); CallAdd (ArgLabel 2)] fresh).1
  ∧ wf (renderFrame three)
  ∧ wf (set_show (Some false) three).1.
Proof.
  destruct X6_well_formed_invariant as (Hnew & Hcalls & Hframe & Hshow).
  split; [exact (Hnew zstore zcontainer zcamera None fresh eq_refl) |].
  split; [exact (Hcalls _ _ _ fresh wf_fresh) |].
  split; [exact (Hframe three wf_three) | exact (Hshow _ three wf_three)].
Defined.

(** X7 at the fresh collection, with a listener that answers
    re-entrantly. *)
Lemma X7_witness :
  wf fresh ∧ _firing fresh = false
  ∧ (call [add_then_remove] 2 (CallAdd (ArgLabel 0)) fresh).2 = Returned (VLabel 0)
  ∧ _firing (call [add_then_remove] 2 (CallAdd (ArgLabel 0)) fresh).1 = false
  ∧ _addedLabels (call [add_then_remove] 2 (CallAdd (ArgLabel 0)) fresh).1 = []
  ∧ _removedLabels (call [add_then_remove] 2 (CallAdd (ArgLabel 0)) fresh).1 = [].
Proof.
  assert (call [add_then_remove] 2 (CallAdd (ArgLabel 0)) fresh
          = ((call [add_then_remove] 2 (CallAdd (ArgLabel 0)) fresh).1,
             Returned (VLabel 0))) as Hcall by (vm_compute; reflexivity).
  split; [exact wf_fresh |]. split; [reflexivity |]. split; [by rewrite Hcall |].
  exact (X7_return_leaves_nothing_pending _ _ _ fresh _ _ wf_fresh eq_refl Hcall).
Defined.

(** X8 at the fresh collection, with a listener that answers the arrival
    of label 0 by adding label 3, which carries the same id: the error of
    the duplicate comes out of the raise. *)
Lemma X8_witness :
  _firing fresh = false
  ∧ (call [react 0 [CallAdd (ArgLabel 3)]] 1 (CallAdd (ArgLabel 0)) fresh).2
    = Threw (RuntimeError (duplicate_message "a"))
  ∧ _firing (call [react 0 [CallAdd (ArgLabel 3)]] 1 (CallAdd (ArgLabel 0)) fresh).1
    = true.
Proof.
  assert (call [react 0 [CallAdd (ArgLabel 3)]] 1 (CallAdd (ArgLabel 0)) fresh
          = ((call [react 0 [CallAdd (ArgLabel 3)]] 1 (CallAdd (ArgLabel 0)) fresh).1,
             Threw (RuntimeError (duplicate_message "a")))) as Hcall
    by (vm_compute; reflexivity).
  split; [reflexivity |]. split; [by rewrite Hcall |].
  destruct (X8_error_leaves_firing _ _ _ fresh _ _ eq_refl Hcall)
    as [[Ht _] | [Hf _]]; [| exact Hf].
  exfalso. vm_compute in Ht. discriminate Ht.
Defined.

(** X9 at the collection of three with [_firing] set. *)
Lemma X9_witness :
  _firing raising = true
  ∧ _firing (calls [] 1 [CallRemoveById (Some "a"); CallAdd (ArgLabel 3)] raising).1 = true
  ∧ raises (trace (calls [] 1 [CallRemoveById (Some "a"); CallAdd (ArgLabel 3)] raising).1)
    = raises (trace raising).
Proof.
  split; [reflexivity |].
  destruct (X9_firing_never_raises [] 1
              [CallRemoveById (Some "a"); CallAdd (ArgLabel 3)] raising eq_refl)
    as (Hf & _ & k & Ht).
  split; [exact Hf |]. rewrite Ht, raises_app.
  rewrite raises_deferred. apply app_nil_r.
Defined.

(** X10 at the collection of three: removeAll with no listener. *)
Lemma X10_witness :
  quiet [] ∧ 1 ≠ 0 ∧ _firing three = false
  ∧ ∃ s' o, call [] 1 CallRemoveAll three = (s', o) ∧ o ≠ OutOfFuel.
Proof.
  split; [exact quiet_nil |]. split; [discriminate |]. split; [reflexivity |].
  destruct (X10_quiet_call_terminates [] 1 CallRemoveAll three quiet_nil
              ltac:(discriminate) eq_refl) as (s' & o & Hrun & Ho & _).
  by exists s', o.
Defined.

(** X12 at the collection that holds the label with show flag false. *)
Lemma X12_witness :
  DOMLabel._show hidden_label = false
  ∧ _show with_hidden_label = true
  ∧ 0 ∈ AssociativeArray.values (_labels with_hidden_label)
  ∧ (style_display ∘ DOMLabel._label <$> store (renderFrame with_hidden_label) !! 0
     = Some "block").
Proof.
  split; [reflexivity |]. split; [reflexivity |].
  split; [apply (bool_decide_unpack _); vm_compute; exact I |].
  rewrite (X12_hidden_label_untouched with_hidden_label 0
             (DOMLabel.set_domlabelCollection true hidden_label) eq_refl eq_refl).
  reflexivity.
Defined.

(** X13 at the collection of three and its label 0. *)
Lemma X13_witness :
  _labels (renderFrame three) = _labels three
  ∧ length (store (renderFrame three)) = 4
  ∧ ∃ e, store (renderFrame three) !! 0
         = Some (DOMLabel.set_label e
                   (DOMLabel.set_domlabelCollection true (zlabel "a" (0, 0, 5)%Z "block")))
         ∧ textContent e = "a".
Proof.
  destruct (X13_frame_writes_styles_only three)
    as (_ & Hl & _ & _ & _ & _ & _ & _ & _ & Hlen & Hst).
  split; [exact Hl |]. split; [rewrite Hlen; reflexivity |].
  exact (Hst 0 _ eq_refl).
Defined.

(** X14 at the fresh collection, which is shown. *)
Lemma X14_witness :
  _show fresh = true
  ∧ ∃ s1 s2,
      set_show (Some false) fresh = (s1, Returned tt)
      ∧ set_show (Some true) s1 = (s2, Returned tt)
      ∧ preRender s2
        = [addEventListener ScopeThis; removeEventListener ScopeUndefined;
           addEventListener ScopeThis].
Proof.
  split; [reflexivity |].
  destruct (X14_show_twice_and_back fresh) as [_ Hback].
  destruct (Hback eq_refl) as (s1 & s2 & H1 & H2 & _ & _ & Hp & _).
  exists s1, s2. by split_and!.
Defined.

(** X15 with the store of the examples. *)
Lemma X15_witness :
  zstore !! 3 = Some (zlabel "a" (1, 1, 1)%Z "block")
  ∧ ∃ s : t,
      new zstore (Some zcontainer) (Some zcamera) (Some false) = Returned s
      ∧ show s = false
      ∧ preRender s = [addEventListener ScopeThis]
      ∧ contains (Some 3) s = Returned false.
Proof.
  split; [reflexivity |].
  destruct (X15_constructed_empty zstore zcontainer zcamera (Some false))
    as (s & Hnew & Hs & _ & Hp & _ & _ & Hc & _).
  exists s. split; [exact Hnew |]. split; [exact Hs |]. split; [exact Hp |].
  exact (Hc 3 _ eq_refl).
Defined.

(** X16 during a raise: at the fresh collection, where label 0 is filed
    in the added set, and at the collection emptied by removeAll, where
    the add of label 0 withdraws the pending removal of its id. *)
Lemma X16_witness :
  _firing raising_fresh = true ∧ _firing raising_emptied = true
  ∧ AssociativeArray.contains (_removedLabels raising_fresh) "a" = false
  ∧ AssociativeArray.contains (_removedLabels raising_emptied) "a" = true
  ∧ (∃ s',
       add [] 0 (ArgLabel 0) raising_fresh = (s', Returned 0)
       ∧ AssociativeArray.get (_addedLabels s') "a" = Some 0)
  ∧ (∃ s',
       add [] 0 (ArgLabel 0) raising_emptied = (s', Returned 0)
       ∧ _addedLabels s' = []
       ∧ AssociativeArray.get (_removedLabels s') "a" = None).
Proof.
  split; [reflexivity |]. split; [reflexivity |].
  split; [reflexivity |]. split; [reflexivity |]. split.
  - destruct (X16_add_during_raise [] 0 raising_fresh 0
                (zlabel "a" (0, 0, 5)%Z "block") eq_refl eq_refl eq_refl)
      as (s' & Hrun & _ & _ & _ & _ & _ & _ & Hnew).
    exists s'. split; [exact Hrun | exact (Hnew eq_refl)].
  - destruct (X16_add_during_raise [] 0 raising_emptied 0
                (DOMLabel.set_domlabelCollection false (zlabel "a" (0, 0, 5)%Z "block"))
                eq_refl eq_refl eq_refl)
      as (s' & Hrun & _ & _ & _ & _ & Hr & Hsame & _).
    exists s'. split; [exact Hrun |]. split; [| exact Hr].
    rewrite (Hsame eq_refl). reflexivity.
Defined.

(** X17 during a raise: at the collection of three, whose labels are
    detached, and at the collection whose label 0 is pending in the added
    set, whose element stays a child of the container. *)
Lemma X17_witness :
  wf raising ∧ _firing raising = true
  ∧ wf raising_added ∧ _firing raising_added = true
  ∧ (∃ s',
       removeAll [] 0 raising = (s', Returned tt)
       ∧ _labels s' = []
       ∧ 1 ∉ children (_container s'))
  ∧ (∃ s',
       removeAll [] 0 raising_added = (s', Returned tt)
       ∧ _labels s' = []
       ∧ 0 ∈ children (_container s')).
Proof.
  split; [exact wf_raising |]. split; [reflexivity |].
  split; [exact wf_raising_added |]. split; [reflexivity |]. split.
  - destruct (X17_removeAll_during_raise [] 0 raising wf_raising eq_refl)
      as (s' & Hrun & Hl & _ & _ & Heach).
    exists s'. split; [exact Hrun |]. split; [exact Hl |].
    rewrite Forall_forall in Heach.
    assert (("b", 1) ∈ _labels raising) as Hin
      by (apply (bool_decide_unpack _); vm_compute; exact I).
    exact (proj1 (Heach _ Hin)).
  - destruct (X17_removeAll_during_raise [] 0 raising_added wf_raising_added eq_refl)
      as (s' & Hrun & Hl & _ & _ & Heach).
    exists s'. split; [exact Hrun |]. split; [exact Hl |].
    rewrite Forall_forall in Heach.
    assert (("a", 0) ∈ _labels raising_added) as Hin
      by (apply (bool_decide_unpack _); vm_compute; exact I).
    apply (proj1 (Heach _ Hin)).
    apply (bool_decide_unpack _). vm_compute. exact I.
Defined.

End Witnesses.

Section LayoutWitnesses.
#[local] Existing Instance zhost_layout.

(** X11 at the label of [reappearing], whose element is not displayed and
    has top '7px' before the frame, on the host whose sizes depend on the
    style: the frame centres it by the height it has once displayed, 10,
    and the width it has once displayed at its new top, 40. *)
Lemma X11_witness :
  wf reappearing ∧ _show reappearing = true
  ∧ 0 ∈ AssociativeArray.values (_labels reappearing)
  ∧ (DOMLabel._label <$> store reappearing !! 0
     = Some (mkElement "a" "none" "7px" "9px"))
  ∧ (DOMLabel._label <$> store (renderFrame reappearing) !! 0
     = Some (mkElement "a" "block" "-5px" "-20px")).
Proof.
  assert (wf reappearing) as Hwf
    by (apply (bool_decide_unpack _); vm_compute; exact I).
  assert (0 ∈ AssociativeArray.values (_labels reappearing)) as Hin
    by (apply (bool_decide_unpack _); vm_compute; exact I).
  split; [exact Hwf |]. split; [reflexivity |]. split; [exact Hin |].
  split; [reflexivity |].
  rewrite (X11_in_front_positioned reappearing 0
             (DOMLabel.set_domlabelCollection true undisplayed_label)
             0%Z 0%Z Hwf eq_refl Hin eq_refl eq_refl eq_refl eq_refl).
  reflexivity.
Defined.
End LayoutWitnesses.
End DOMLabelCollection.
